(** * K4IniReader: a shallow embedding of the INI reader and its typed accessor

    The development follows [K4IniReader.hpp] (version v1.1.0): the private
    helpers [trim], [removeInlineComment] and [find], the constructor that
    fills the two-level [std::unordered_map], and the template [read<T>].
    The constructor and [read<T>] of the earlier revision, [K4INIReader],
    are embedded too and compared with the later ones.

    Conventions
    - [std::string] is [string]; a [size_t] position is a [nat] and
      [std::string::npos] is [None];
    - [std::unordered_map<std::string, V>] is a record holding the finite map
      of its elements together with the capacity requested through
      [reserve]; only the elements can be observed through [find];
    - [reserve] throws when the buckets cannot be allocated.  The functions
      [process_line], [run_lines] and [K4IniReader] give the state and the
      Document of a run in which every reservation returns; the functions
      of the same names in module [Alloc] follow the same lines of the
      source with the exception as an outcome, and a Document is built
      exactly when they return one;
    - the template parameter [T] of [read<T>] is a descriptor of type [ty],
      and a value of type [T] is a [tyval T];
    - [<cctype>] is taken in the "C" locale, [std::from_chars] as the C++17
      standard describes it. *)

From Stdlib Require Import ZArith Ascii.
From stdpp Require Import gmap strings.

Local Open Scope Z_scope.

#[local] Arguments Ascii.eqb : simpl never.
#[local] Arguments String.eqb : simpl never.

(** ** [std::string] members used by the reader *)

Module StdString.

Definition empty (s : string) : bool :=
  match s with "" => true | String _ _ => false end.

(** [s.erase(pos)]: everything from index [pos] on is removed. *)
Fixpoint erase (pos : nat) (s : string) : string :=
  match pos, s with
  | O, _ => ""
  | S _, "" => ""
  | S p, String c s' => String c (erase p s')
  end.

(** [s.substr(pos)]: the characters from index [pos] to the end. *)
Fixpoint substr_from (pos : nat) (s : string) : string :=
  match pos, s with
  | O, _ => s
  | S _, "" => ""
  | S p, String _ s' => substr_from p s'
  end.

(** [s.substr(pos, n)] *)
Definition substr (pos n : nat) (s : string) : string :=
  erase n (substr_from pos s).

Fixpoint mem (c : ascii) (set : string) : bool :=
  match set with
  | "" => false
  | String d set' => if Ascii.eqb c d then true else mem c set'
  end.

(** [s.find_first_of(set)] *)
Fixpoint find_first_of (set : string) (s : string) : option nat :=
  match s with
  | "" => None
  | String c s' => if mem c set then Some O else S <$> find_first_of set s'
  end.

Fixpoint starts_with (pat s : string) : bool :=
  match pat, s with
  | "", _ => true
  | String _ _, "" => false
  | String p pat', String c s' => Ascii.eqb p c && starts_with pat' s'
  end.

(** [s.find(pat)] for a string [pat] *)
Fixpoint find (pat : string) (s : string) : option nat :=
  match s with
  | "" => if empty pat then Some O else None
  | String _ s' => if starts_with pat s then Some O else S <$> find pat s'
  end.

(** [s.find(c)] for a character [c] *)
Fixpoint find_char (c : ascii) (s : string) : option nat :=
  match s with
  | "" => None
  | String d s' => if Ascii.eqb d c then Some O else S <$> find_char c s'
  end.

(** [s.find(c, pos)]: the search starts at index [pos]. *)
Definition find_char_from (c : ascii) (pos : nat) (s : string) : option nat :=
  (fun i => (pos + i)%nat) <$> find_char c (substr_from pos s).

(** [s[i]], when [i] is in range *)
Fixpoint get (i : nat) (s : string) {struct s} : option ascii :=
  match s, i with
  | "", _ => None
  | String c _, O => Some c
  | String _ s', S j => get j s'
  end.

Fixpoint map (f : ascii -> ascii) (s : string) : string :=
  match s with
  | "" => ""
  | String c s' => String (f c) (map f s')
  end.

Fixpoint any_of (p : ascii -> bool) (s : string) : bool :=
  match s with
  | "" => false
  | String c s' => p c || any_of p s'
  end.

End StdString.

(** ** [<cctype>] in the "C" locale *)

Module CType.

Definition code (c : ascii) : Z := Z.of_N (N_of_ascii c).

(** space, and the control characters from '\t' (9) to '\r' (13) *)
Definition isspace (c : ascii) : bool :=
  let n := code c in (n =? 32) || ((9 <=? n) && (n <=? 13)).

Definition isupper (c : ascii) : bool :=
  let n := code c in (65 <=? n) && (n <=? 90).

Definition islower (c : ascii) : bool :=
  let n := code c in (97 <=? n) && (n <=? 122).

Definition isdigit (c : ascii) : bool :=
  let n := code c in (48 <=? n) && (n <=? 57).

Definition tolower (c : ascii) : ascii :=
  if isupper c then ascii_of_N (Z.to_N (code c + 32)) else c.

End CType.

(** ** The private helpers of the class *)

(** [trim]: the leading whitespace is erased, then the trailing whitespace
    (found from [rbegin]). *)
Fixpoint trim_start (s : string) : string :=
  match s with
  | "" => ""
  | String c s' => if CType.isspace c then trim_start s' else s
  end.

Definition trim (s : string) : string :=
  let s1 := trim_start s in
  String.rev (trim_start (String.rev s1)).

Definition removeInlineComment (s : string) : string :=
  let commaOrHashtagPos := StdString.find_first_of ";#" s in
  let doubleSlashPos := StdString.find "//" s in
  match commaOrHashtagPos with
  | Some p =>
      match doubleSlashPos with
      | Some q => StdString.erase (Nat.min p q) s
      | None => StdString.erase p s
      end
  | None =>
      match doubleSlashPos with
      | Some q => StdString.erase q s
      | None => s
      end
  end.

(** ** [std::unordered_map<std::string, V>]

    [elems] is the content of the table; [reserved] is the largest capacity
    requested so far through [reserve].  Lookups read [elems] only. *)

Record unordered_map (V : Type) : Type := mk_unordered_map {
  reserved : N;
  elems : gmap string V
}.
Arguments mk_unordered_map {V} _ _.
Arguments reserved {V} _.
Arguments elems {V} _.

Module UMap.
Section Ops.
Context {V : Type}.

(** a default-constructed table *)
Definition empty : unordered_map V :=
  {| reserved := 0%N; elems := ∅ |}.

(** The table after [m.reserve(n)] has returned.  The call throws instead
    when the buckets cannot be allocated: see [Alloc.reserve]. *)
Definition reserve (n : N) (m : unordered_map V) : unordered_map V :=
  {| reserved := N.max (reserved m) n; elems := elems m |}.

(** [m.find(k)], with [m.end()] as [None] *)
Definition find (k : string) (m : unordered_map V) : option V :=
  elems m !! k.

(** the element that [m[k]] refers to: the mapped value, or a
    default-constructed one that [operator[]] inserts first *)
Definition at_default (dflt : V) (k : string) (m : unordered_map V) : V :=
  default dflt (elems m !! k).

(** the table after [m[k]] has been assigned [v] *)
Definition set (k : string) (v : V) (m : unordered_map V) : unordered_map V :=
  {| reserved := reserved m; elems := <[k := v]> (elems m) |}.
End Ops.
End UMap.

Abbreviation Document := (unordered_map (unordered_map string)).

(** [find]: the section is looked up, then the key; [Some out] stands for
    [true] with the value stored in [out]. *)
Definition find (data : Document) (s k : string) : option string :=
  match UMap.find s data with
  | None => None (* The section was not found *)
  | Some sec =>
      match UMap.find k sec with
      | None => None (* The key was not found *)
      | Some v => Some v
      end
  end.

(** ** The constructor *)

(** [std::getline] called until it fails: the lines of the file, without
    their terminating '\n'; a final line needs no terminator. *)
Fixpoint getlines (content : string) : list string :=
  match content with
  | "" => []
  | String c rest =>
      if Ascii.eqb c "010"%char then "" :: getlines rest
      else match getlines rest with
           | [] => [String c ""]
           | l :: ls => String c l :: ls
           end
  end.

(** The variables that live across the iterations of the [while] loop. *)
Record loop_state : Type := mk_loop_state {
  data : unordered_map (unordered_map string);
  currentSection : string
}.

(** One iteration of the loop body, on the line that [getline] produced,
    when [reserve] returns. *)
Definition process_line (nKeys : N) (st : loop_state) (line0 : string) : loop_state :=
  let line := removeInlineComment line0 in
  if StdString.empty line then st (* Skips empty lines *)
  else
    let posBracketStart := StdString.find_char "["%char line in
    let posEqualSing := StdString.find_char "="%char line in
    match posBracketStart with
    | Some pbs =>
        match StdString.find_char_from "]"%char pbs line with
        | None => st (* skips to the next line *)
        | Some pbe =>
            let sectionExtracted :=
              trim (StdString.substr (pbs + 1) (pbe - pbs - 1) line) in
            let sec := UMap.at_default UMap.empty sectionExtracted (data st) in
            {| data := UMap.set sectionExtracted (UMap.reserve nKeys sec) (data st);
               currentSection := sectionExtracted |}
        end
    | None =>
        match posEqualSing with
        | Some pe =>
            let keyExtracted := trim (StdString.substr 0 pe line) in
            let value := trim (StdString.substr_from (pe + 1) line) in
            let sec := UMap.at_default UMap.empty (currentSection st) (data st) in
            {| data := UMap.set (currentSection st)
                         (UMap.set keyExtracted value sec) (data st);
               currentSection := currentSection st |}
        | None => st
        end
    end.

(** The state with which the loop is entered, once the file is open. *)
Definition initial_state (nSections : N) : loop_state :=
  {| data := UMap.reserve nSections UMap.empty; currentSection := "" |}.

Definition run_lines (nKeys : N) (st : loop_state) (lines : list string) : loop_state :=
  fold_left (process_line nKeys) lines st.

(** [K4IniReader(fileName, nSections, nKeys)].  [file] is what opening
    [fileName] gave: [None] when [is_open()] is false, otherwise the
    characters that can be read from the stream.  The result is the member
    [data] when the constructor returns, that is when no [reserve] throws;
    [Alloc.K4IniReader] tells when that is. *)
Definition K4IniReader (file : option string) (nSections nKeys : N)
  : unordered_map (unordered_map string) :=
  match file with
  | None => UMap.empty
  | Some content =>
      data (run_lines nKeys (initial_state nSections) (getlines content))
  end.

Definition nSections_default : N := 32.
Definition nKeys_default : N := 8.

(** ** Reservations that throw

    [data.reserve(nSections)] and [data[currentSection].reserve(nKeys)]
    allocate the buckets of a table, and throw [std::bad_alloc] (or
    [std::length_error]) when these cannot be allocated.  Nothing catches
    the exception: it leaves the constructor, and no reader is built. *)

Inductive outcome (A : Type) : Type :=
| returned (a : A)
| thrown.
Arguments returned {A} _.
Arguments thrown {A}.

Definition outcome_map {A B : Type} (f : A -> B) (o : outcome A) : outcome B :=
  match o with
  | returned a => returned (f a)
  | thrown => thrown
  end.

Module Alloc.

(** [m.reserve(n)].  [avail] is the largest number of buckets that can be
    allocated for a table while the constructor runs; it depends on the
    machine.  The other allocations of the constructor (nodes, strings)
    are taken to succeed. *)
Definition reserve {V : Type} (avail n : N) (m : unordered_map V)
  : outcome (unordered_map V) :=
  if (n <=? avail)%N then returned (UMap.reserve n m) else thrown.

(** One iteration of the loop body. *)
Definition process_line (avail nKeys : N) (st : loop_state) (line0 : string)
  : outcome loop_state :=
  let line := removeInlineComment line0 in
  if StdString.empty line then returned st (* Skips empty lines *)
  else
    let posBracketStart := StdString.find_char "["%char line in
    let posEqualSing := StdString.find_char "="%char line in
    match posBracketStart with
    | Some pbs =>
        match StdString.find_char_from "]"%char pbs line with
        | None => returned st (* skips to the next line *)
        | Some pbe =>
            let sectionExtracted :=
              trim (StdString.substr (pbs + 1) (pbe - pbs - 1) line) in
            let sec := UMap.at_default UMap.empty sectionExtracted (data st) in
            match reserve avail nKeys sec with
            | thrown => thrown
            | returned sec' =>
                returned
                  {| data := UMap.set sectionExtracted sec' (data st);
                     currentSection := sectionExtracted |}
            end
        end
    | None =>
        match posEqualSing with
        | Some pe =>
            let keyExtracted := trim (StdString.substr 0 pe line) in
            let value := trim (StdString.substr_from (pe + 1) line) in
            let sec := UMap.at_default UMap.empty (currentSection st) (data st) in
            returned
              {| data := UMap.set (currentSection st)
                           (UMap.set keyExtracted value sec) (data st);
                 currentSection := currentSection st |}
        | None => returned st
        end
    end.

(** The [while] loop: an exception ends it. *)
Fixpoint run_lines (avail nKeys : N) (st : loop_state) (lines : list string)
  : outcome loop_state :=
  match lines with
  | [] => returned st
  | l :: ls =>
      match process_line avail nKeys st l with
      | thrown => thrown
      | returned st' => run_lines avail nKeys st' ls
      end
  end.

(** [K4IniReader(fileName, nSections, nKeys)]: the member [data] when the
    constructor returns. *)
Definition K4IniReader (avail : N) (file : option string) (nSections nKeys : N)
  : outcome (unordered_map (unordered_map string)) :=
  match file with
  | None => returned UMap.empty (* [return] before anything is reserved *)
  | Some content =>
      match reserve avail nSections UMap.empty with
      | thrown => thrown
      | returned data0 =>
          outcome_map data
            (run_lines avail nKeys {| data := data0; currentSection := "" |}
               (getlines content))
      end
  end.

End Alloc.

(** ** [std::from_chars] *)

Inductive errc : Type := errc_none | invalid_argument | result_out_of_range.

Record from_chars_result : Type := mk_from_chars_result {
  ptr : nat;  (* offset from [first] *)
  ec : errc
}.

(** The longest prefix of decimal digits, and what follows it. *)
Fixpoint span_digits (s : string) : string * string :=
  match s with
  | "" => ("", "")
  | String c s' =>
      if CType.isdigit c
      then let '(ds, rest) := span_digits s' in (String c ds, rest)
      else ("", s)
  end.

(** The number that a sequence of decimal digits denotes, most significant
    digit first, continuing from [acc]. *)
Fixpoint digits_value (acc : Z) (ds : string) : Z :=
  match ds with
  | "" => acc
  | String c ds' => digits_value (10 * acc + (CType.code c - 48)) ds'
  end.

(** An optional leading '-' *)
Definition take_minus (s : string) : bool * string :=
  match s with
  | String c s' => if Ascii.eqb c "-"%char then (true, s') else (false, s)
  | "" => (false, s)
  end.

(** The values of an integer type of [bits] bits. *)
Definition int_in_range (signed : bool) (bits : Z) (v : Z) : bool :=
  if signed then (- 2 ^ (bits - 1) <=? v) && (v <? 2 ^ (bits - 1))
  else (0 <=? v) && (v <? 2 ^ bits).

(** [std::from_chars(first, last, value)] in base 10 for an integer type.
    The pattern is a nonempty digit sequence, preceded by '-' only when the
    type is signed.  The second component is [value] after the call: it is
    modified only when the pattern matched and the parsed value is
    representable. *)
Definition from_chars_int (signed : bool) (bits : Z) (s : string) (value : Z)
  : from_chars_result * Z :=
  let '(neg, body) := if signed then take_minus s else (false, s) in
  let '(ds, _) := span_digits body in
  if StdString.empty ds
  then ({| ptr := 0; ec := invalid_argument |}, value)
  else
    let last := ((if neg then 1 else 0) + String.length ds)%nat in
    let parsed := if neg then - digits_value 0 ds else digits_value 0 ds in
    if int_in_range signed bits parsed
    then ({| ptr := last; ec := errc_none |}, parsed)
    else ({| ptr := last; ec := result_out_of_range |}, value).

(** A floating-point pattern, as [from_chars] recognises it with
    [chars_format::general].  A decimal token stands for
    [(-1)^neg * mantissa * 10^exp10]. *)
Inductive float_token : Type :=
| FDecimal (neg : bool) (mantissa : Z) (exp10 : Z)
| FInfinity (neg : bool)
| FNan (neg : bool) (payload : string).

Definition is_nchar (c : ascii) : bool :=
  CType.isdigit c || CType.isupper c || CType.islower c
  || Ascii.eqb c "_"%char.

Fixpoint span_nchar (s : string) : string * string :=
  match s with
  | "" => ("", "")
  | String c s' =>
      if is_nchar c
      then let '(ds, rest) := span_nchar s' in (String c ds, rest)
      else ("", s)
  end.

(** [pat] is in lower case; the text is compared without regard to case. *)
Fixpoint starts_with_ci (pat s : string) : bool :=
  match pat, s with
  | "", _ => true
  | String _ _, "" => false
  | String p pat', String c s' =>
      Ascii.eqb p (CType.tolower c) && starts_with_ci pat' s'
  end.

(** The exponent part: 'e' or 'E', an optional sign, a nonempty digit
    sequence.  The result is the exponent and the number of characters. *)
Definition scan_exponent (s : string) : option (Z * nat) :=
  match s with
  | "" => None
  | String c s1 =>
      if Ascii.eqb (CType.tolower c) "e"%char then
        let '(eneg, s2, k) :=
          match s1 with
          | String d r =>
              if Ascii.eqb d "+"%char then (false, r, 1%nat)
              else if Ascii.eqb d "-"%char then (true, r, 1%nat)
              else (false, s1, 0%nat)
          | "" => (false, s1, 0%nat)
          end in
        let '(ds, _) := span_digits s2 in
        if StdString.empty ds then None
        else Some (if eneg then - digits_value 0 ds else digits_value 0 ds,
                   (1 + k + String.length ds)%nat)
      else None
  end.

(** The floating-point token at the start of [s] and its length, if any. *)
Definition scan_float (s : string) : option (float_token * nat) :=
  let '(neg, body) := take_minus s in
  let off := if neg then 1%nat else 0%nat in
  if starts_with_ci "infinity" body then Some (FInfinity neg, (off + 8)%nat)
  else if starts_with_ci "inf" body then Some (FInfinity neg, (off + 3)%nat)
  else if starts_with_ci "nan" body then
    match StdString.substr_from 3 body with
    | String c r =>
        if Ascii.eqb c "("%char then
          let '(pl, r') := span_nchar r in
          match r' with
          | String d _ =>
              if Ascii.eqb d ")"%char
              then Some (FNan neg pl, (off + 5 + String.length pl)%nat)
              else Some (FNan neg "", (off + 3)%nat)
          | "" => Some (FNan neg "", (off + 3)%nat)
          end
        else Some (FNan neg "", (off + 3)%nat)
    | "" => Some (FNan neg "", (off + 3)%nat)
    end
  else
    let '(ip, r1) := span_digits body in
    let '(fp, r2, dot) :=
      match r1 with
      | String c r =>
          if Ascii.eqb c "."%char
          then let '(fp, r2) := span_digits r in (fp, r2, 1%nat)
          else ("", r1, 0%nat)
      | "" => ("", r1, 0%nat)
      end in
    if StdString.empty ip && StdString.empty fp then None
    else
      let m := digits_value 0 (ip +:+ fp) in
      let n := (off + String.length ip + dot + String.length fp)%nat in
      match scan_exponent r2 with
      | Some (e, k) => Some (FDecimal neg m (e - Z.of_nat (String.length fp)), (n + k)%nat)
      | None => Some (FDecimal neg m (- Z.of_nat (String.length fp)), n)
      end.

(** [std::from_chars(first, last, value)] for a floating-point type [F].
    [nearest] gives the value of type [F] that a token is converted to, and
    [None] when the token is not in the range representable by [F]. *)
Definition from_chars_float {F : Type} (nearest : float_token -> option F)
    (s : string) (value : F) : from_chars_result * F :=
  match scan_float s with
  | None => ({| ptr := 0; ec := invalid_argument |}, value)
  | Some (tok, last) =>
      match nearest tok with
      | Some v => ({| ptr := last; ec := errc_none |}, v)
      | None => ({| ptr := last; ec := result_out_of_range |}, value)
      end
  end.

(** ** The typed accessor [read<T>] *)

(** The types [T] that [read<T>] is instantiated at, by the branch of the
    [if constexpr] chain they select. *)
Inductive ty : Type :=
| TBool                                   (* [bool] *)
| TChar                                   (* [char] *)
| TInt (signed : bool) (bits : Z)         (* the other integer types *)
| TFloat (F : Type) (nearest : float_token -> option F)
                                          (* [float], [double], [long double] *)
| TString                                 (* [std::string] *)
| TOther (A : Type).                      (* an unhandled type *)

Definition tyval (T : ty) : Type :=
  match T with
  | TBool => bool
  | TChar => ascii
  | TInt _ _ => Z
  | TFloat F _ => F
  | TString => string
  | TOther A => A
  end.

Definition to_lower_if_upper (outValue : string) : string :=
  let hasUpper := StdString.any_of CType.isupper outValue in
  if hasUpper then StdString.map CType.tolower outValue else outValue.

Definition read (T : ty) (d : Document) (section key : string)
    (defaultValue : tyval T) (toLowerString : bool) : tyval T :=
  match find d section key with
  | None => defaultValue
  | Some outValue =>
      match T return tyval T -> tyval T with
      | TBool => fun _ =>
          String.eqb outValue "true" || String.eqb outValue "1"
          || String.eqb outValue "on" || String.eqb outValue "yes"
      | TChar => fun defaultValue =>
          match outValue with
          | "" => defaultValue
          | String c _ => c
          end
      | TInt signed bits => fun defaultValue =>
          let outParsedValue := defaultValue in
          snd (from_chars_int signed bits outValue outParsedValue)
      | TFloat F nearest => fun defaultValue =>
          let outParsedValue := defaultValue in
          snd (from_chars_float nearest outValue outParsedValue)
      | TString => fun _ =>
          if toLowerString then to_lower_if_upper outValue else outValue
      | TOther _ => fun defaultValue => defaultValue
      end defaultValue
  end.

(** [read] with the default argument [toLowerString = false] *)
Definition read_default (T : ty) (d : Document) (section key : string)
    (defaultValue : tyval T) : tyval T :=
  read T d section key defaultValue false.

(** A reader is constructed, and one value is read from it. *)
Definition construct_and_read (T : ty) (avail : N) (file : option string)
    (nSections nKeys : N) (section key : string) (defaultValue : tyval T)
    (toLowerString : bool) : outcome (tyval T) :=
  outcome_map (fun d => read T d section key defaultValue toLowerString)
    (Alloc.K4IniReader avail file nSections nKeys).

(** ** Notions used in the statements *)

(** [o] is the first index at which [P] holds, or [None] when there is none. *)
Definition is_first (P : nat -> Prop) (o : option nat) : Prop :=
  match o with
  | Some i => P i /\ forall j, (j < i)%nat -> ~ P j
  | None => forall i, ~ P i
  end.

(** The two families of comment markers, by position. *)
Definition semi_or_hash_at (s : string) (i : nat) : Prop :=
  StdString.get i s = Some ";"%char \/ StdString.get i s = Some "#"%char.

Definition double_slash_at (s : string) (i : nat) : Prop :=
  StdString.get i s = Some "/"%char /\ StdString.get (S i) s = Some "/"%char.

(** The smallest of the positions that were found. *)
Definition earliest (a b : option nat) : option nat :=
  match a, b with
  | Some p, Some q => Some (Nat.min p q)
  | Some p, None => Some p
  | None, Some q => Some q
  | None, None => None
  end.

(** The line cut at index [i]: its first [i] characters. *)
Definition truncate_at (o : option nat) (s : string) : string :=
  match o with
  | Some i => StdString.erase i s
  | None => s
  end.

(** What the loop body decides about a line, apart from the update of the
    table that follows from it. *)
Inductive line_kind : Type :=
| Skipped
| Header (name : string)
| KeyValue (key value : string).

Definition classify (line0 : string) : line_kind :=
  let line := removeInlineComment line0 in
  if StdString.empty line then Skipped
  else
    match StdString.find_char "["%char line with
    | Some pbs =>
        match StdString.find_char_from "]"%char pbs line with
        | None => Skipped
        | Some pbe => Header (trim (StdString.substr (pbs + 1) (pbe - pbs - 1) line))
        end
    | None =>
        match StdString.find_char "="%char line with
        | Some pe =>
            KeyValue (trim (StdString.substr 0 pe line))
                     (trim (StdString.substr_from (pe + 1) line))
        | None => Skipped
        end
    end.

(** The assignments that the lines make, in source order, each with the
    section that is current when its line is met; [cur] is the section that
    is current before the first line. *)
Fixpoint assignments (cur : string) (lines : list string)
  : list (string * string * string) :=
  match lines with
  | [] => []
  | l :: ls =>
      match classify l with
      | Skipped => assignments cur ls
      | Header name => assignments name ls
      | KeyValue k v => (cur, k, v) :: assignments cur ls
      end
  end.

(** The value of the last assignment to key [k] of section [s]. *)
Fixpoint last_assigned (s k : string) (tr : list (string * string * string))
  : option string :=
  match tr with
  | [] => None
  | (s', k', v) :: tr' =>
      match last_assigned s k tr' with
      | Some w => Some w
      | None => if decide (s' = s /\ k' = k) then Some v else None
      end
  end.

Fixpoint all_digits (ds : string) : bool :=
  match ds with
  | "" => true
  | String c ds' => CType.isdigit c && all_digits ds'
  end.

Definition starts_with_digit (s : string) : bool :=
  match s with
  | "" => false
  | String c _ => CType.isdigit c
  end.

Definition minus (neg : bool) : string := if neg then "-" else "".

(** An integer token at the start of [raw]: an optional '-', allowed for a
    signed type only, then the digits [ds], which [rest] does not extend. *)
Record int_token (signed : bool) (raw : string) (neg : bool) (ds rest : string)
  : Prop := mk_int_token {
  it_split : raw = minus neg +:+ ds +:+ rest;
  it_nonempty : ds <> "";
  it_digits : all_digits ds = true;
  it_sign : neg = true -> signed = true;
  it_maximal : starts_with_digit rest = false
}.

(** The number that the token denotes. *)
Definition int_token_value (neg : bool) (ds : string) : Z :=
  if neg then - digits_value 0 ds else digits_value 0 ds.

(** No prefix of [raw] is an integer token, whatever follows it. *)
Definition no_int_prefix (signed : bool) (raw : string) : Prop :=
  forall neg ds rest,
    raw = minus neg +:+ ds +:+ rest -> all_digits ds = true ->
    (neg = true -> signed = true) -> ds = "".

(** The first '[' of the line is at index [p], and no ']' is at or after it. *)
Definition unterminated_at (l : string) (p : nat) : Prop :=
  is_first (fun i => StdString.get i l = Some "["%char) (Some p) /\
  forall j, (p <= j)%nat -> StdString.get j l <> Some "]"%char.

Definition unterminated_header (l : string) : Prop :=
  exists p, unterminated_at l p.

(** ** Sources and types used in the examples *)

(** A machine on which 2^48 buckets can be allocated, and a hint beyond
    what it, or any allocator of 8-byte buckets, can grant. *)
Definition sample_avail : N := 2 ^ 48.
Definition huge_hint : N := 2 ^ 60 - 1.

Definition reopened_section : string :=
  "[A]" +:+ String "010" "k=1" +:+ String "010" "[A]" +:+ String "010" "j=2".

Definition repeated_key : string :=
  "k=1" +:+ String "010" "k=2".

Definition with_unterminated : string :=
  "[A]" +:+ String "010" "k=1" +:+ String "010" "[unterminated"
  +:+ String "010" "j=2".

Definition without_unterminated : string :=
  "[A]" +:+ String "010" "k=1" +:+ String "010" "j=2".

Definition sample_document : Document :=
  K4IniReader
    (Some ("k = 5 // five" +:+ String "010" "[A]" +:+ String "010" "k=42xyz"
           +:+ String "010" "b=banana" +:+ String "010" "h=HELLO"
           +:+ String "010" "t=True" +:+ String "010" "v=off ; note"
           +:+ String "010" "big=99999999999999999999"
           +:+ String "010" "y = yes"))
    nSections_default nKeys_default.

(** A floating-point type for the examples: it holds a decimal token as
    its mantissa and exponent, signed, when the exponent is within 38 of
    zero, and it has no infinity and no NaN. *)
Definition decimal38 (t : float_token) : option (Z * Z) :=
  match t with
  | FDecimal neg m e =>
      if (-38 <=? e) && (e <=? 38) then Some (if neg then - m else m, e)
      else None
  | FInfinity _ | FNan _ _ => None
  end.

(** ** Notions used in the further properties *)

Fixpoint all_space (s : string) : bool :=
  match s with
  | "" => true
  | String c s' => CType.isspace c && all_space s'
  end.

(** The last character of a string, when it has one. *)
Fixpoint last_char (s : string) : option ascii :=
  match s with
  | "" => None
  | String c s' =>
      match s' with
      | "" => Some c
      | String _ _ => last_char s'
      end
  end.

(** Neither the first nor the last character is whitespace. *)
Definition trimmed (s : string) : Prop :=
  (forall c, StdString.get 0 s = Some c -> CType.isspace c = false) /\
  (forall c, last_char s = Some c -> CType.isspace c = false).

(** No comment marker stands anywhere in the text. *)
Definition comment_free (s : string) : Prop :=
  forall i, ~ semi_or_hash_at s i /\ ~ double_slash_at s i.

(** Every line followed by its '\n'. *)
Fixpoint unlines (ls : list string) : string :=
  match ls with
  | [] => ""
  | l :: ls' => l +:+ String "010" (unlines ls')
  end.

Definition newline : ascii := "010"%char.

(** The text does not end with '\n', and is not empty. *)
Definition lacks_final_newline (content : string) : bool :=
  match last_char content with
  | None => false
  | Some c => negb (Ascii.eqb c newline)
  end.

(** The decision of the loop body on the text that is left once the
    comment has been removed. *)
Definition classify_text (line : string) : line_kind :=
  if StdString.empty line then Skipped
  else
    match StdString.find_char "["%char line with
    | Some pbs =>
        match StdString.find_char_from "]"%char pbs line with
        | None => Skipped
        | Some pbe => Header (trim (StdString.substr (pbs + 1) (pbe - pbs - 1) line))
        end
    | None =>
        match StdString.find_char "="%char line with
        | Some pe =>
            KeyValue (trim (StdString.substr 0 pe line))
                     (trim (StdString.substr_from (pe + 1) line))
        | None => Skipped
        end
    end.

(** '\r', as it ends the lines of a file with CRLF line endings *)
Definition carriage_return : ascii := "013"%char.

(** ** The earlier revision, [K4INIReader]

    The constructor does not test [is_open()]: on a stream that is not open
    [getline] fails at once, after [data.reserve(nSections)].  As for
    [K4IniReader], this is the member [data] when no [reserve] throws. *)
Definition K4INIReader_v1 (file : option string) (nSections nKeys : N)
  : unordered_map (unordered_map string) :=
  let lines := match file with None => [] | Some content => getlines content end in
  data (run_lines nKeys (initial_state nSections) lines).

(** The value of type [char] with a given code. *)
Definition char_of_Z (v : Z) : ascii := ascii_of_N (Z.to_N (v mod 256)).

(** [read<T>] of the earlier revision.  The integral types, [char] among
    them, and [float] and [double] are parsed into [outParsedValue], which
    is not initialised: [indeterminate] stands for what it holds before the
    call.  [TFloat] is [float] or [double] here.  The result is [None] where
    the instantiation has no behaviour: [bool] (there is no [from_chars]
    for it) and the types for which no [return] is reached.
    [char_signed] tells whether [char] is a signed type. *)
Definition read_v1 (char_signed : bool) (T : ty) (d : Document)
    (section key : string) (defaultValue indeterminate : tyval T)
    (toLowerString : bool) : option (tyval T) :=
  match find d section key with
  | None => match T with TBool => None | _ => Some defaultValue end
  | Some outValue =>
      match T return tyval T -> tyval T -> option (tyval T) with
      | TBool => fun _ _ => None
      | TChar => fun defaultValue indeterminate =>
          let outParsedValue := CType.code indeterminate in
          let '(result, outParsedValue) :=
            from_chars_int char_signed 8 outValue outParsedValue in
          match ec result with
          | errc_none => Some (char_of_Z outParsedValue)
          | _ => Some defaultValue
          end
      | TInt signed bits => fun defaultValue indeterminate =>
          let outParsedValue := indeterminate in
          let '(result, outParsedValue) :=
            from_chars_int signed bits outValue outParsedValue in
          match ec result with
          | errc_none => Some outParsedValue
          | _ => Some defaultValue
          end
      | TFloat F nearest => fun defaultValue indeterminate =>
          let outParsedValue := indeterminate in
          let '(result, outParsedValue) :=
            from_chars_float nearest outValue outParsedValue in
          match ec result with
          | errc_none => Some outParsedValue
          | _ => Some defaultValue
          end
      | TString => fun _ _ =>
          Some (if toLowerString then to_lower_if_upper outValue else outValue)
      | TOther _ => fun _ _ => None
      end defaultValue indeterminate
  end.

(** [s] is a run of consecutive characters of [t]. *)
Definition substring_of (s t : string) : Prop :=
  exists a b, t = a +:+ s +:+ b.

(** * Properties *)

(** ** Searching a string *)

Section Searching.

Lemma is_first_shift (P Q : nat -> Prop) (o : option nat) :
  ~ P O -> (forall i, P (S i) <-> Q i) ->
  is_first Q o -> is_first P (S <$> o).
Proof.
  intros H0 HS. destruct o as [i|]; simpl.
  - intros [HQ Hmin]. split; [by apply HS|].
    intros [|j] Hj; [done|]. rewrite HS. apply Hmin. lia.
  - intros Hno [|i]; [done|]. rewrite HS. apply Hno.
Qed.

Lemma mem_semi_hash (c : ascii) :
  StdString.mem c ";#" = true <-> c = ";"%char \/ c = "#"%char.
Proof.
  simpl. destruct (Ascii.eqb_spec c ";"%char), (Ascii.eqb_spec c "#"%char);
    split; intros; try tauto; try discriminate; intuition congruence.
Qed.

Lemma find_first_of_first (s : string) :
  is_first (semi_or_hash_at s) (StdString.find_first_of ";#" s).
Proof.
  induction s as [|c s IH].
  - intros i [H|H]; destruct i; discriminate.
  - cbn [StdString.find_first_of].
    destruct (StdString.mem c ";#") eqn:Hm.
    + apply mem_semi_hash in Hm. split; [|intros j Hj; lia].
      unfold semi_or_hash_at; simpl. destruct Hm; subst; auto.
    + apply is_first_shift with (Q := semi_or_hash_at s); [|done|done].
      unfold semi_or_hash_at; simpl. intros [H|H]; simplify_eq;
        discriminate.
Qed.

Lemma starts_with_double_slash (s : string) :
  StdString.starts_with "//" s = true <-> double_slash_at s O.
Proof.
  unfold double_slash_at.
  destruct s as [|c [|c' s]]; simpl.
  - split; [done|]. intros [? _]; discriminate.
  - rewrite andb_false_r. split; [done|]. intros [_ ?]; discriminate.
  - rewrite andb_true_r. split.
    + intros [H1 H2]%andb_prop. apply Ascii.eqb_eq in H1, H2. by subst.
    + intros [H1 H2]. by simplify_eq.
Qed.

Lemma find_double_slash_first (s : string) :
  is_first (double_slash_at s) (StdString.find "//" s).
Proof.
  induction s as [|c s IH].
  - simpl. intros i [H _]. destruct i; discriminate.
  - cbn [StdString.find].
    destruct (StdString.starts_with "//" (String c s)) eqn:Hs.
    + split; [by apply starts_with_double_slash|]. intros j Hj; lia.
    + apply is_first_shift with (Q := double_slash_at s); [|done|done].
      rewrite <- starts_with_double_slash. by rewrite Hs.
Qed.

Lemma find_char_first (c : ascii) (s : string) :
  is_first (fun i => StdString.get i s = Some c) (StdString.find_char c s).
Proof.
  induction s as [|d s IH].
  - intros i. destruct i; discriminate.
  - cbn [StdString.find_char]. destruct (Ascii.eqb_spec d c) as [->|Hne].
    + split; [done|]. intros j Hj; lia.
    + apply is_first_shift with (Q := fun i => StdString.get i s = Some c);
        [|done|done].
      simpl. congruence.
Qed.

Lemma is_first_unique (P : nat -> Prop) (o1 o2 : option nat) :
  is_first P o1 -> is_first P o2 -> o1 = o2.
Proof.
  destruct o1 as [i|], o2 as [j|]; simpl.
  - intros [Hi Hmi] [Hj Hmj]. f_equal.
    destruct (Nat.lt_trichotomy i j) as [?|[?|?]]; [|done|].
    + by destruct (Hmj i).
    + by destruct (Hmi j).
  - intros [Hi _] Hno. by destruct (Hno i).
  - intros Hno [Hj _]. by destruct (Hno j).
  - done.
Qed.

Lemma get_substr_from (pos i : nat) (s : string) :
  StdString.get i (StdString.substr_from pos s) = StdString.get (pos + i) s.
Proof.
  revert s. induction pos as [|pos IH]; intros s; [done|].
  destruct s as [|c s]; simpl; [by destruct i|]. apply IH.
Qed.

Lemma find_char_from_None (c : ascii) (pos : nat) (s : string) :
  StdString.find_char_from c pos s = None <->
  forall j, (pos <= j)%nat -> StdString.get j s <> Some c.
Proof.
  unfold StdString.find_char_from.
  pose proof (find_char_first c (StdString.substr_from pos s)) as Hf.
  destruct (StdString.find_char c (StdString.substr_from pos s)) as [i|];
    simpl in *.
  - split; [done|]. intros Hno. destruct Hf as [Hi _].
    rewrite get_substr_from in Hi. by destruct (Hno (pos + i)%nat); [lia|].
  - split; [|done]. intros _ j Hj Hget.
    apply (Hf (j - pos)%nat). rewrite get_substr_from.
    by replace (pos + (j - pos))%nat with j by lia.
Qed.

Lemma get_erase_lt (i j : nat) (s : string) :
  (j < i)%nat -> StdString.get j (StdString.erase i s) = StdString.get j s.
Proof.
  revert j s. induction i as [|i IH]; intros j s Hj; [lia|].
  destruct s as [|c s]; [done|]. destruct j as [|j]; [done|].
  simpl. apply IH. lia.
Qed.

Lemma get_erase_ge (i j : nat) (s : string) :
  (i <= j)%nat -> StdString.get j (StdString.erase i s) = None.
Proof.
  revert j s. induction i as [|i IH]; intros j s Hj; [done|].
  destruct s as [|c s]; [done|]. destruct j as [|j]; [lia|].
  simpl. apply IH. lia.
Qed.

End Searching.

(** ** Comment stripping *)

(** C6.  [removeInlineComment] cuts the line at the smallest of two indices:
    that of the first ';' or '#' (one combined search) and that of the first
    "//" (a search of its own); a line with neither is left as it is. *)
Theorem removeInlineComment_cuts_at_earliest_marker (s : string) :
  exists a b : option nat,
    is_first (semi_or_hash_at s) a /\
    is_first (double_slash_at s) b /\
    removeInlineComment s = truncate_at (earliest a b) s.
Proof.
  exists (StdString.find_first_of ";#" s), (StdString.find "//" s).
  split; [apply find_first_of_first|].
  split; [apply find_double_slash_first|].
  unfold removeInlineComment.
  destruct (StdString.find_first_of ";#" s), (StdString.find "//" s); done.
Qed.

Example removeInlineComment_slash_first :
  removeInlineComment "k = 5 // five ; more" = "k = 5 ".
Proof. reflexivity. Qed.

Example removeInlineComment_semi_first :
  removeInlineComment "v-sync = off ; Toggle // v-sync" = "v-sync = off ".
Proof. reflexivity. Qed.

Example removeInlineComment_single_slash :
  removeInlineComment "path = a/b" = "path = a/b".
Proof. reflexivity. Qed.

(** The cut is at a comment marker, when there is one. *)
Lemma removeInlineComment_cut (s : string) :
  exists m : option nat,
    removeInlineComment s = truncate_at m s /\
    match m with
    | Some i => semi_or_hash_at s i \/ double_slash_at s i
    | None => True
    end.
Proof.
  pose proof (find_first_of_first s) as Ha.
  pose proof (find_double_slash_first s) as Hb.
  unfold removeInlineComment.
  destruct (StdString.find_first_of ";#" s) as [p|],
           (StdString.find "//" s) as [q|]; simpl in Ha, Hb.
  - exists (Some (Nat.min p q)). split; [done|].
    destruct (Nat.min_spec p q) as [[_ ->]|[_ ->]]; tauto.
  - exists (Some p). split; [done|]. tauto.
  - exists (Some q). split; [done|]. tauto.
  - by exists None.
Qed.

(** ** The table after one line *)

Section LoopBody.
Variable nKeys : N.

Lemma process_line_classify (st : loop_state) (line : string) :
  process_line nKeys st line =
  match classify line with
  | Skipped => st
  | Header name =>
      {| data := UMap.set name
                   (UMap.reserve nKeys (UMap.at_default UMap.empty name (data st)))
                   (data st);
         currentSection := name |}
  | KeyValue k v =>
      {| data := UMap.set (currentSection st)
                   (UMap.set k v
                      (UMap.at_default UMap.empty (currentSection st) (data st)))
                   (data st);
         currentSection := currentSection st |}
  end.
Proof.
  unfold process_line, classify.
  destruct (StdString.empty (removeInlineComment line)); [done|].
  destruct (StdString.find_char "[" (removeInlineComment line)) as [pbs|].
  - by destruct (StdString.find_char_from "]" pbs (removeInlineComment line)).
  - by destruct (StdString.find_char "=" (removeInlineComment line)).
Qed.

(** A header reopens the section it names: no stored value changes. *)
Lemma find_after_header (d : Document) (name s k : string) :
  find (UMap.set name
          (UMap.reserve nKeys (UMap.at_default UMap.empty name d)) d) s k
  = find d s k.
Proof.
  unfold find, UMap.find, UMap.set, UMap.at_default; simpl.
  destruct (decide (name = s)) as [->|Hne].
  - rewrite lookup_insert_eq. simpl.
    destruct (elems d !! s) as [sec|]; simpl; [done|].
    by rewrite lookup_empty.
  - by rewrite lookup_insert_ne.
Qed.

(** An assignment changes the value of its key in the current section,
    and nothing else. *)
Lemma find_after_assignment (d : Document) (cur key value s k : string) :
  find (UMap.set cur
          (UMap.set key value (UMap.at_default UMap.empty cur d)) d) s k
  = if decide (cur = s /\ key = k) then Some value else find d s k.
Proof.
  unfold find, UMap.find, UMap.set, UMap.at_default; simpl.
  destruct (decide (cur = s)) as [->|Hne].
  - rewrite lookup_insert_eq. simpl.
    destruct (decide (key = k)) as [->|Hk].
    + rewrite lookup_insert_eq. by rewrite decide_True.
    + rewrite lookup_insert_ne by done.
      rewrite decide_False by tauto.
      destruct (elems d !! s) as [sec|]; simpl; [done|].
      by rewrite lookup_empty.
  - rewrite lookup_insert_ne by done. by rewrite decide_False by tauto.
Qed.

(** What is stored once the loop has run over [lines] from state [st]. *)
Lemma find_run_lines (lines : list string) (st : loop_state) (s k : string) :
  find (data (run_lines nKeys st lines)) s k =
  match last_assigned s k (assignments (currentSection st) lines) with
  | Some v => Some v
  | None => find (data st) s k
  end.
Proof.
  revert st. induction lines as [|l ls IH]; intros st; [done|].
  unfold run_lines in *. cbn [fold_left assignments].
  rewrite IH, process_line_classify.
  destruct (classify l) as [|name|key value]; cbn [data currentSection].
  - done.
  - destruct (last_assigned s k (assignments name ls)); [done|].
    apply find_after_header.
  - cbn [last_assigned].
    destruct (last_assigned s k (assignments (currentSection st) ls));
      [done|].
    rewrite find_after_assignment. by case_decide.
Qed.

Lemma process_line_skipped (st : loop_state) (line : string) :
  classify line = Skipped -> process_line nKeys st line = st.
Proof. intros H. by rewrite process_line_classify, H. Qed.

End LoopBody.

Lemma find_initial_state (nSections : N) (s k : string) :
  find (data (initial_state nSections)) s k = None.
Proof. done. Qed.

(** What a Document answers is decided by the assignments of its source. *)
Lemma find_K4IniReader (content : string) (nSections nKeys : N) (s k : string) :
  find (K4IniReader (Some content) nSections nKeys) s k =
  last_assigned s k (assignments "" (getlines content)).
Proof.
  unfold K4IniReader. rewrite find_run_lines, find_initial_state.
  cbn [currentSection initial_state].
  by destruct (last_assigned s k (assignments "" (getlines content))).
Qed.

Lemma find_K4IniReader_closed (nSections nKeys : N) (s k : string) :
  find (K4IniReader None nSections nKeys) s k = None.
Proof. done. Qed.

(** ** The Document that the constructor builds *)

Section Reservations.
Variables avail nKeys : N.

Lemma Alloc_process_line_returned (st st' : loop_state) (line : string) :
  Alloc.process_line avail nKeys st line = returned st' ->
  st' = process_line nKeys st line.
Proof.
  unfold Alloc.process_line, process_line, Alloc.reserve.
  destruct (StdString.empty (removeInlineComment line)); [by intros [= <-]|].
  destruct (StdString.find_char "[" (removeInlineComment line)) as [pbs|].
  - destruct (StdString.find_char_from "]" pbs (removeInlineComment line));
      [|by intros [= <-]].
    destruct (nKeys <=? avail)%N; [by intros [= <-]|done].
  - destruct (StdString.find_char "=" (removeInlineComment line));
      by intros [= <-].
Qed.

Lemma Alloc_process_line_fits (st : loop_state) (line : string) :
  (nKeys <= avail)%N ->
  Alloc.process_line avail nKeys st line = returned (process_line nKeys st line).
Proof.
  intros Hfit%N.leb_le.
  unfold Alloc.process_line, process_line, Alloc.reserve. rewrite Hfit.
  destruct (StdString.empty (removeInlineComment line)); [done|].
  destruct (StdString.find_char "[" (removeInlineComment line)) as [pbs|].
  - by destruct (StdString.find_char_from "]" pbs (removeInlineComment line)).
  - by destruct (StdString.find_char "=" (removeInlineComment line)).
Qed.

Lemma Alloc_run_lines_returned (lines : list string) (st st' : loop_state) :
  Alloc.run_lines avail nKeys st lines = returned st' ->
  st' = run_lines nKeys st lines.
Proof.
  revert st. induction lines as [|l ls IH]; intros st; simpl.
  - by intros [= <-].
  - destruct (Alloc.process_line avail nKeys st l) as [st1|] eqn:Hl; [|done].
    apply Alloc_process_line_returned in Hl as ->. apply IH.
Qed.

Lemma Alloc_run_lines_fits (lines : list string) (st : loop_state) :
  (nKeys <= avail)%N ->
  Alloc.run_lines avail nKeys st lines = returned (run_lines nKeys st lines).
Proof.
  intros Hfit. revert st. induction lines as [|l ls IH]; intros st; [done|].
  simpl. by rewrite Alloc_process_line_fits, IH.
Qed.

(** A Document that the constructor returns is the one that [K4IniReader]
    describes. *)
Lemma Alloc_K4IniReader_returned
    (file : option string) (nSections : N) (d : Document) :
  Alloc.K4IniReader avail file nSections nKeys = returned d ->
  d = K4IniReader file nSections nKeys.
Proof.
  unfold Alloc.K4IniReader, K4IniReader, Alloc.reserve.
  destruct file as [content|]; [|by intros [= <-]].
  destruct (nSections <=? avail)%N; [|done].
  destruct (Alloc.run_lines _ _ _ _) as [st|] eqn:Hrun; [|done].
  apply Alloc_run_lines_returned in Hrun as ->. by intros [= <-].
Qed.

(** Hints that can be reserved let the constructor return. *)
Lemma Alloc_K4IniReader_fits (file : option string) (nSections : N) :
  (nSections <= avail)%N -> (nKeys <= avail)%N ->
  Alloc.K4IniReader avail file nSections nKeys
  = returned (K4IniReader file nSections nKeys).
Proof.
  intros HS%N.leb_le HK. unfold Alloc.K4IniReader, K4IniReader, Alloc.reserve.
  destruct file as [content|]; [|done].
  rewrite HS. fold (initial_state nSections).
  by rewrite Alloc_run_lines_fits.
Qed.

(** A first hint that cannot be reserved makes the constructor throw, as
    soon as the file is open. *)
Lemma Alloc_K4IniReader_thrown (content : string) (nSections : N) :
  (avail < nSections)%N ->
  Alloc.K4IniReader avail (Some content) nSections nKeys = thrown.
Proof.
  intros Hbig%N.leb_gt. unfold Alloc.K4IniReader, Alloc.reserve.
  by rewrite Hbig.
Qed.

End Reservations.

(** C4.  A source that cannot be opened gives a Document with no section
    and no key, whatever the hints are; so does an empty source, or one
    from which nothing can be read, when [nSections] buckets can be
    reserved.  In these cases the constructor returns, no exception
    leaves it. *)
Theorem source_without_lines_gives_empty_document
    (avail : N) (file : option string) (nSections nKeys : N) :
  file = None \/ (file = Some "" /\ (nSections <= avail)%N) ->
  exists d,
    Alloc.K4IniReader avail file nSections nKeys = returned d /\
    elems d = ∅ /\
    forall s k : string, find d s k = None.
Proof.
  intros [->|[-> Hfit%N.leb_le]].
  - by exists UMap.empty.
  - exists (UMap.reserve nSections UMap.empty).
    unfold Alloc.K4IniReader, Alloc.reserve. by rewrite Hfit.
Qed.

Lemma source_without_lines_gives_empty_document_witness :
  (exists d,
     Alloc.K4IniReader sample_avail None huge_hint huge_hint = returned d /\
     elems d = ∅ /\ forall s k : string, find d s k = None) /\
  (exists d,
     Alloc.K4IniReader sample_avail (Some "") 32 8 = returned d /\
     elems d = ∅ /\ forall s k : string, find d s k = None).
Proof.
  split.
  - apply (source_without_lines_gives_empty_document
             sample_avail None huge_hint huge_hint).
    left. reflexivity.
  - apply (source_without_lines_gives_empty_document sample_avail (Some "") 32 8).
    right. split; [reflexivity|]. apply N.leb_le. reflexivity.
Defined.

(** An empty file that can be opened, with a first hint that cannot be
    reserved: [data.reserve(nSections)] throws, and no Document is built. *)
Lemma empty_source_with_huge_hint_throws :
  Alloc.K4IniReader sample_avail (Some "") huge_hint nKeys_default = thrown /\
  ~ exists d,
      Alloc.K4IniReader sample_avail (Some "") huge_hint nKeys_default
      = returned d.
Proof. split; [reflexivity|]. intros [d Hd]. discriminate Hd. Qed.

(** C5.  The value stored under a section and a key is that of the last
    line, in source order, that assigns the key while the section is
    current.  So a repeated key overwrites, and a repeated header reopens
    its section: in "[A]\nk=1\n[A]\nj=2" section A holds k and j. *)
Theorem stored_value_is_last_assignment
    (content : string) (nSections nKeys : N) (s k : string) :
  find (K4IniReader (Some content) nSections nKeys) s k
  = last_assigned s k (assignments "" (getlines content))
  /\ find (K4IniReader (Some reopened_section) nSections nKeys) "A" "k" = Some "1"
  /\ find (K4IniReader (Some reopened_section) nSections nKeys) "A" "j" = Some "2"
  /\ find (K4IniReader (Some repeated_key) nSections nKeys) "" "k" = Some "2".
Proof.
  rewrite !find_K4IniReader. repeat split; reflexivity.
Qed.

Example reopened_section_lines :
  getlines reopened_section = ["[A]"; "k=1"; "[A]"; "j=2"].
Proof. reflexivity. Qed.

Example reopened_section_assignments :
  assignments "" (getlines reopened_section) = [("A", "k", "1"); ("A", "j", "2")].
Proof. reflexivity. Qed.

Example implicit_section :
  find (K4IniReader (Some "k = 5 // five") nSections_default nKeys_default) "" "k"
  = Some "5".
Proof. reflexivity. Qed.

(** ** The typed accessor *)

(** C1.  [read] is a function into the values of the requested type: it has
    no failing outcome.  When the section is absent, or the key is absent
    from the section, its result is [defaultValue]. *)
Theorem read_miss_returns_default
    (T : ty) (d : Document) (s k : string) (defaultValue : tyval T) (fl : bool) :
  (UMap.find s d = None \/
   exists sec, UMap.find s d = Some sec /\ UMap.find k sec = None) ->
  read T d s k defaultValue fl = defaultValue.
Proof.
  intros Hmiss. unfold read.
  assert (find d s k = None) as ->; [|done].
  unfold find. destruct Hmiss as [->|(sec & -> & ->)]; done.
Qed.

Lemma read_miss_returns_default_witness :
  read (TInt true 32) sample_document "B" "k" 7 false = 7 /\
  read TString sample_document "A" "missing" "dflt" true = "dflt".
Proof.
  split.
  - apply (read_miss_returns_default (TInt true 32) sample_document "B" "k").
    left. reflexivity.
  - apply (read_miss_returns_default TString sample_document "A" "missing").
    right. eexists. split; reflexivity.
Defined.

(** C3.  A boolean read that finds a raw value gives [true] exactly when
    the raw text is one of "true", "1", "on", "yes", compared as they are
    written; any other text, "True" included, gives [false], whatever the
    default value is. *)
Theorem read_bool_exact_literals
    (d : Document) (s k raw : string) (defaultValue fl : bool) :
  find d s k = Some raw ->
  (read TBool d s k defaultValue fl = true <->
     raw = "true" \/ raw = "1" \/ raw = "on" \/ raw = "yes") /\
  (~ (raw = "true" \/ raw = "1" \/ raw = "on" \/ raw = "yes") ->
     read TBool d s k defaultValue fl = false) /\
  (raw = "True" -> read TBool d s k defaultValue fl = false).
Proof.
  intros Hhit. unfold read. rewrite Hhit.
  assert (String.eqb raw "true" || String.eqb raw "1" || String.eqb raw "on"
          || String.eqb raw "yes" = true
          <-> raw = "true" \/ raw = "1" \/ raw = "on" \/ raw = "yes") as Hiff.
  { rewrite !orb_true_iff, !String.eqb_eq. tauto. }
  split; [exact Hiff|]. split.
  - intros Hno. apply not_true_is_false. by rewrite Hiff.
  - intros ->. reflexivity.
Qed.

Lemma read_bool_exact_literals_witness :
  read TBool sample_document "A" "t" true false = false /\
  read TBool sample_document "A" "y" false false = true.
Proof.
  split.
  - apply (read_bool_exact_literals sample_document "A" "t" "True" true false);
      reflexivity.
  - apply (read_bool_exact_literals sample_document "A" "y" "yes" false false);
      [reflexivity|]. right; right; right; reflexivity.
Defined.

Example read_bool_off_with_note :
  read TBool sample_document "A" "v" true false = false.
Proof. reflexivity. Qed.

(** Lowering the case of a text without an upper-case letter changes
    nothing. *)
Lemma tolower_fixes_non_upper (c : ascii) :
  CType.isupper c = false -> CType.tolower c = c.
Proof. unfold CType.tolower. by intros ->. Qed.

Lemma map_tolower_fixes_non_upper (s : string) :
  StdString.any_of CType.isupper s = false ->
  StdString.map CType.tolower s = s.
Proof.
  induction s as [|c s IH]; [done|]. simpl.
  intros [Hc Hs]%orb_false_elim.
  by rewrite tolower_fixes_non_upper, IH.
Qed.

(** C8.  A text read that finds a raw value gives, when fold-case is asked
    for, the raw value with every character lowered (testing first for an
    upper-case letter cannot be observed), and otherwise the raw value
    itself. *)
Theorem read_string_fold_case
    (d : Document) (s k raw defaultValue : string) :
  find d s k = Some raw ->
  read TString d s k defaultValue true = StdString.map CType.tolower raw /\
  read TString d s k defaultValue false = raw.
Proof.
  intros Hhit. unfold read. rewrite Hhit. split; [|done].
  unfold to_lower_if_upper.
  destruct (StdString.any_of CType.isupper raw) eqn:Hup; [done|].
  by rewrite map_tolower_fixes_non_upper.
Qed.

Lemma read_string_fold_case_witness :
  read TString sample_document "A" "h" "none" true = "hello" /\
  read TString sample_document "A" "h" "none" false = "HELLO".
Proof.
  apply (read_string_fold_case sample_document "A" "h" "HELLO" "none").
  reflexivity.
Defined.

(** ** Capacity hints *)

(** C9.  Two Documents that the constructor returns for one source, with
    whatever capacity hints, give the same result to every read.  (The
    constructor returns when the hints can be reserved; a hint that cannot
    makes it throw.) *)
Theorem capacity_hints_are_unobservable_when_reserved
    (avail : N) (file : option string) (nSections1 nKeys1 nSections2 nKeys2 : N)
    (d1 d2 : Document) :
  Alloc.K4IniReader avail file nSections1 nKeys1 = returned d1 ->
  Alloc.K4IniReader avail file nSections2 nKeys2 = returned d2 ->
  forall (T : ty) (s k : string) (defaultValue : tyval T) (fl : bool),
    read T d1 s k defaultValue fl = read T d2 s k defaultValue fl.
Proof.
  intros ->%Alloc_K4IniReader_returned ->%Alloc_K4IniReader_returned
    T s k defaultValue fl.
  unfold read.
  assert (find (K4IniReader file nSections1 nKeys1) s k
          = find (K4IniReader file nSections2 nKeys2) s k) as ->; [|done].
  destruct file as [content|]; [|done].
  by rewrite !find_K4IniReader.
Qed.

Lemma capacity_hints_are_unobservable_when_reserved_witness :
  read (TInt true 32) (K4IniReader (Some reopened_section) 32 8) "A" "k" 0 false
  = read (TInt true 32) (K4IniReader (Some reopened_section) 1 1) "A" "k" 0 false.
Proof.
  apply (capacity_hints_are_unobservable_when_reserved
           sample_avail (Some reopened_section) 32 8 1 1); reflexivity.
Defined.

(** One source read with two pairs of positive hints: with 32 and 8 the
    read gives the stored number, with a first hint that cannot be reserved
    the constructor throws and there is no reader to ask. *)
Lemma capacity_hint_can_prevent_construction :
  construct_and_read (TInt true 32) sample_avail (Some "k=1")
    32 8 "" "k" 0 false = returned 1 /\
  construct_and_read (TInt true 32) sample_avail (Some "k=1")
    huge_hint 8 "" "k" 0 false = thrown /\
  (0 < huge_hint)%N.
Proof. split; [reflexivity|]. split; reflexivity. Qed.

(** The second hint is used by section headers only. *)
Example huge_nKeys_throws_at_a_header :
  Alloc.K4IniReader sample_avail (Some "[A]") 32 huge_hint = thrown /\
  Alloc.K4IniReader sample_avail (Some "k=1") 32 huge_hint
  = returned (K4IniReader (Some "k=1") 32 huge_hint).
Proof. split; reflexivity. Qed.

(** The hints are recorded in the tables all the same. *)
Example capacity_hints_change_the_tables :
  K4IniReader (Some "[A]") 32 8 <> K4IniReader (Some "[A]") 1 1.
Proof. intros H. apply (f_equal reserved) in H. discriminate H. Qed.

(** ** Malformed section headers *)

Lemma unterminated_at_searches (l : string) (p : nat) :
  unterminated_at l p <->
  StdString.find_char "["%char l = Some p /\
  StdString.find_char_from "]"%char p l = None.
Proof.
  unfold unterminated_at. rewrite find_char_from_None. split.
  - intros [Hfirst Hclose]. split; [|done].
    exact (is_first_unique _ _ _ (find_char_first "[" l) Hfirst).
  - intros [Hfind Hclose]. split; [|done].
    rewrite <- Hfind. apply find_char_first.
Qed.

Lemma classify_unterminated (line : string) :
  unterminated_header (removeInlineComment line) -> classify line = Skipped.
Proof.
  intros (p & [Hopen Hclose]%unterminated_at_searches). unfold classify.
  destruct (StdString.empty (removeInlineComment line)); [done|].
  by rewrite Hopen, Hclose.
Qed.

Lemma run_lines_app (nKeys : N) (st : loop_state) (pre post : list string) :
  run_lines nKeys st (pre ++ post)
  = run_lines nKeys (run_lines nKeys st pre) post.
Proof. apply fold_left_app. Qed.

(** Where the comment is cut off after the first '[', the bracket and what
    follows it up to the comment are still there for the header test. *)
Lemma unterminated_survives_stripping (line : string) (p : nat) :
  unterminated_at line p ->
  (forall j, (j < p)%nat -> ~ semi_or_hash_at line j /\ ~ double_slash_at line j) ->
  unterminated_at (removeInlineComment line) p.
Proof.
  intros [[Hp Hmin] Hclose] Hclean.
  destruct (removeInlineComment_cut line) as (m & -> & Hm).
  destruct m as [m|]; simpl; [|done].
  assert (p < m)%nat as Hpm.
  { destruct (Nat.lt_trichotomy m p) as [Hlt|[->|Hgt]]; [| |done].
    - destruct (Hclean m Hlt). tauto.
    - destruct Hm as [[H|H]|[H _]]; rewrite Hp in H; discriminate. }
  split; [split|].
  - by rewrite get_erase_lt.
  - intros j Hj. rewrite get_erase_lt by lia. by apply Hmin.
  - intros j Hj. destruct (Nat.lt_ge_cases j m).
    + rewrite get_erase_lt by done. by apply Hclose.
    + by rewrite get_erase_ge.
Qed.

(** C7.  A line that header detection finds with a '[' and no ']' at or
    after it (the line as it is once its comment is stripped) is discarded:
    the table and the current section are what they were, and the lines
    that follow are treated as if the line were not there. *)
Theorem unterminated_header_is_discarded (nKeys : N) (line : string) :
  unterminated_header (removeInlineComment line) ->
  (forall st, process_line nKeys st line = st) /\
  (forall st pre post,
     run_lines nKeys st (pre ++ line :: post) = run_lines nKeys st (pre ++ post)) /\
  (forall nSections c1 c2 pre post,
     getlines c1 = pre ++ line :: post -> getlines c2 = pre ++ post ->
     K4IniReader (Some c1) nSections nKeys = K4IniReader (Some c2) nSections nKeys).
Proof.
  intros Hbad%classify_unterminated.
  assert (forall st, process_line nKeys st line = st) as Hskip.
  { intros st. by apply process_line_skipped. }
  assert (forall st pre post,
            run_lines nKeys st (pre ++ line :: post)
            = run_lines nKeys st (pre ++ post)) as Hrun.
  { intros st pre post. rewrite !run_lines_app.
    unfold run_lines at 1. cbn [fold_left]. by rewrite Hskip. }
  split; [done|]. split; [done|].
  intros nSections c1 c2 pre post H1 H2. unfold K4IniReader.
  by rewrite H1, H2, Hrun.
Qed.

Lemma unterminated_header_is_discarded_witness :
  unterminated_header (removeInlineComment "[unterminated") /\
  K4IniReader (Some with_unterminated) 32 8
  = K4IniReader (Some without_unterminated) 32 8.
Proof.
  assert (unterminated_header (removeInlineComment "[unterminated")) as Hbad.
  { exists O. apply unterminated_at_searches. split; reflexivity. }
  split; [exact Hbad|].
  destruct (unterminated_header_is_discarded 8 "[unterminated" Hbad)
    as (_ & _ & H).
  apply (H 32%N with_unterminated without_unterminated ["[A]"; "k=1"] ["j=2"]);
    reflexivity.
Defined.

(** The same for a line read from the file, when no comment marker stands
    before its first '['. *)
Corollary unterminated_raw_line_is_discarded
    (nKeys : N) (line : string) (p : nat) (st : loop_state) :
  unterminated_at line p ->
  (forall j, (j < p)%nat -> ~ semi_or_hash_at line j /\ ~ double_slash_at line j) ->
  process_line nKeys st line = st.
Proof.
  intros Hbad Hclean. apply process_line_skipped, classify_unterminated.
  exists p. by apply unterminated_survives_stripping.
Qed.

(** A '[' inside a comment is not seen by header detection. *)
Example bracket_inside_comment :
  classify "k=1 ; [" = KeyValue "k" "1".
Proof. reflexivity. Qed.

Example bracket_closed_inside_comment :
  classify "[abc ; ]" = Skipped.
Proof. reflexivity. Qed.

(** ** Numeric conversion *)

Section Tokens.

Lemma app_empty_l (s : string) : "" +:+ s = s.
Proof. reflexivity. Qed.

Lemma app_cons (c : ascii) (s t : string) :
  String c s +:+ t = String c (s +:+ t).
Proof. reflexivity. Qed.

Lemma span_digits_token (ds rest : string) :
  all_digits ds = true -> starts_with_digit rest = false ->
  span_digits (ds +:+ rest) = (ds, rest).
Proof.
  intros Hds Hrest. induction ds as [|c ds IH].
  - rewrite app_empty_l. destruct rest as [|c rest]; [done|].
    simpl in *. by rewrite Hrest.
  - rewrite app_cons. simpl in *.
    apply andb_prop in Hds as [-> Hds]. by rewrite IH.
Qed.

Lemma span_digits_split (s ds rest : string) :
  span_digits s = (ds, rest) -> s = ds +:+ rest /\ all_digits ds = true.
Proof.
  revert ds. induction s as [|c s IH]; intros ds; simpl.
  - by intros [= <- <-].
  - destruct (CType.isdigit c) eqn:Hc.
    + destruct (span_digits s) as [ds' rest'] eqn:Hs. intros [= <- <-].
      destruct (IH ds' eq_refl) as [-> Hall].
      by rewrite app_cons; simpl; rewrite Hc.
    + by intros [= <- <-].
Qed.

Lemma take_minus_split (s body : string) (neg : bool) :
  take_minus s = (neg, body) -> s = minus neg +:+ body.
Proof.
  destruct s as [|c s]; simpl; [by intros [= <- <-]|].
  destruct (Ascii.eqb_spec c "-"%char) as [->|_]; by intros [= <- <-].
Qed.

Lemma take_minus_digits (ds rest : string) :
  ds <> "" -> all_digits ds = true ->
  take_minus (ds +:+ rest) = (false, ds +:+ rest).
Proof.
  destruct ds as [|c ds]; [done|]. intros _ Hds. rewrite app_cons. simpl.
  destruct (Ascii.eqb_spec c "-"%char) as [->|_]; [|done].
  discriminate Hds.
Qed.

(** The sign and the digits that [from_chars] works on. *)
Lemma int_token_scan (signed : bool) (raw : string) (neg : bool) (ds rest : string) :
  int_token signed raw neg ds rest ->
  (if signed then take_minus raw else (false, raw)) = (neg, ds +:+ rest).
Proof.
  intros [-> Hne Hds Hsign Hmax]. destruct neg; simpl.
  - by rewrite (Hsign eq_refl).
  - rewrite app_empty_l. destruct signed; [|done].
    by apply take_minus_digits.
Qed.

Lemma empty_false_iff (s : string) : StdString.empty s = false <-> s <> "".
Proof. by destruct s. Qed.

Lemma from_chars_int_token
    (signed : bool) (bits : Z) (raw : string) (neg : bool) (ds rest : string)
    (value : Z) :
  int_token signed raw neg ds rest ->
  from_chars_int signed bits raw value =
  let last := ((if neg then 1 else 0) + String.length ds)%nat in
  if int_in_range signed bits (int_token_value neg ds)
  then ({| ptr := last; ec := errc_none |}, int_token_value neg ds)
  else ({| ptr := last; ec := result_out_of_range |}, value).
Proof.
  intros Htok. unfold from_chars_int.
  rewrite (int_token_scan _ _ _ _ _ Htok).
  destruct Htok as [_ Hne Hds _ Hmax].
  rewrite span_digits_token by done.
  apply empty_false_iff in Hne. by rewrite Hne.
Qed.

Lemma from_chars_int_no_prefix
    (signed : bool) (bits : Z) (raw : string) (value : Z) :
  no_int_prefix signed raw ->
  from_chars_int signed bits raw value
  = ({| ptr := 0; ec := invalid_argument |}, value).
Proof.
  intros Hno. unfold from_chars_int.
  destruct (if signed then take_minus raw else (false, raw))
    as [neg body] eqn:Hsign.
  destruct (span_digits body) as [ds rest] eqn:Hspan.
  apply span_digits_split in Hspan as [-> Hds].
  assert (raw = minus neg +:+ ds +:+ rest /\ (neg = true -> signed = true))
    as [Hraw Hneg].
  { destruct signed.
    - by apply take_minus_split in Hsign.
    - by injection Hsign as <- <-. }
  by rewrite (Hno neg ds rest Hraw Hds Hneg).
Qed.

End Tokens.

(** C2.  A numeric read that finds a raw value is prefix-based.  For an
    integer type: when an integer token begins the raw text and denotes a
    value of the type, that value is the result, whatever follows the
    token; when no prefix of the raw text is a token, the result is
    [defaultValue].  For a floating-point type: when a token begins the raw
    text and the type has a value for it, that value is the result; when
    there is no token, the result is [defaultValue]. *)
Theorem read_numeric_is_prefix_based
    (d : Document) (s k raw : string) (fl : bool) :
  find d s k = Some raw ->
  (forall signed bits defaultValue neg ds rest,
     int_token signed raw neg ds rest ->
     int_in_range signed bits (int_token_value neg ds) = true ->
     read (TInt signed bits) d s k defaultValue fl = int_token_value neg ds) /\
  (forall signed bits defaultValue,
     no_int_prefix signed raw ->
     read (TInt signed bits) d s k defaultValue fl = defaultValue) /\
  (forall (F : Type) (nearest : float_token -> option F) defaultValue tok n v,
     scan_float raw = Some (tok, n) -> nearest tok = Some v ->
     read (TFloat F nearest) d s k defaultValue fl = v) /\
  (forall (F : Type) (nearest : float_token -> option F) defaultValue,
     scan_float raw = None ->
     read (TFloat F nearest) d s k defaultValue fl = defaultValue).
Proof.
  intros Hhit. unfold read. rewrite Hhit. repeat split.
  - intros signed bits dv neg ds rest Htok Hrange.
    rewrite (from_chars_int_token _ _ _ _ _ _ _ Htok). simpl.
    by rewrite Hrange.
  - intros signed bits dv Hno. cbn zeta. by rewrite from_chars_int_no_prefix.
  - intros F nearest dv tok n v Hscan Hv. unfold from_chars_float.
    by rewrite Hscan, Hv.
  - intros F nearest dv Hscan. unfold from_chars_float. by rewrite Hscan.
Qed.

Lemma no_int_prefix_banana : no_int_prefix true "banana".
Proof.
  intros neg ds rest Hraw Hds _.
  destruct ds as [|c ds]; [done|]. exfalso.
  destruct neg; unfold minus in Hraw.
  - discriminate Hraw.
  - rewrite app_empty_l, app_cons in Hraw. injection Hraw as <- _.
    discriminate Hds.
Qed.

Lemma read_numeric_is_prefix_based_witness :
  read (TInt true 32) sample_document "A" "k" (-1) false = 42 /\
  read (TInt true 32) sample_document "A" "b" (-1) false = -1 /\
  read (TFloat _ decimal38) sample_document "A" "k" (0, 0) false = (42, 0) /\
  read (TFloat _ decimal38) sample_document "A" "b" (0, 0) false = (0, 0).
Proof.
  destruct (read_numeric_is_prefix_based sample_document "A" "k" "42xyz" false
              eq_refl) as (Hint & _ & Hfloat & _).
  destruct (read_numeric_is_prefix_based sample_document "A" "b" "banana" false
              eq_refl) as (_ & Hnoint & _ & Hnofloat).
  split; [|split; [|split]].
  - apply (Hint true 32 (-1) false "42" "xyz"); [|reflexivity].
    split; [reflexivity|discriminate|reflexivity|discriminate|reflexivity].
  - apply (Hnoint true 32 (-1)). exact no_int_prefix_banana.
  - apply (Hfloat _ decimal38 (0, 0) (FDecimal false 42 0) 2%nat (42, 0));
      reflexivity.
  - apply (Hnofloat _ decimal38 (0, 0)). reflexivity.
Defined.

Example read_int_123abc :
  read (TInt true 32) (K4IniReader (Some "n=123abc") 32 8) "" "n" 0 false = 123.
Proof. reflexivity. Qed.

Example read_int_after_comment :
  read (TInt true 32) sample_document "" "k" 0 false = 5.
Proof. reflexivity. Qed.

Example read_unsigned_minus :
  read (TInt false 32) (K4IniReader (Some "n=-5") 32 8) "" "n" 7 false = 7.
Proof. reflexivity. Qed.

Example read_int_plus_sign :
  read (TInt true 32) (K4IniReader (Some "n=+5") 32 8) "" "n" 7 false = 7.
Proof. reflexivity. Qed.

(** C10.  An integer read that finds a raw value whose leading token
    denotes a number outside the range of the requested type gives
    [defaultValue]: [from_chars] leaves [outParsedValue], which was
    initialised to [defaultValue], as it is. *)
Theorem read_int_out_of_range_returns_default
    (d : Document) (s k raw : string) (fl : bool)
    (signed : bool) (bits : Z) (defaultValue : Z) (neg : bool) (ds rest : string) :
  find d s k = Some raw ->
  int_token signed raw neg ds rest ->
  int_in_range signed bits (int_token_value neg ds) = false ->
  read (TInt signed bits) d s k defaultValue fl = defaultValue /\
  ec (fst (from_chars_int signed bits raw defaultValue)) = result_out_of_range.
Proof.
  intros Hhit Htok Hrange. unfold read. rewrite Hhit.
  rewrite (from_chars_int_token _ _ _ _ _ _ _ Htok). simpl.
  by rewrite Hrange.
Qed.

Lemma read_int_out_of_range_returns_default_witness :
  read (TInt true 32) sample_document "A" "big" (-1) false = -1.
Proof.
  apply (read_int_out_of_range_returns_default sample_document "A" "big"
           "99999999999999999999" false true 32 (-1) false
           "99999999999999999999" "").
  - reflexivity.
  - split; [reflexivity|discriminate|reflexivity|discriminate|reflexivity].
  - reflexivity.
Defined.

Example read_int8_out_of_range :
  read (TInt true 8) (K4IniReader (Some "n=128") 32 8) "" "n" 3 false = 3 /\
  read (TInt true 8) (K4IniReader (Some "n=-128") 32 8) "" "n" 3 false = -128.
Proof. split; reflexivity. Qed.


(** * Further properties *)

(** ** Strings *)

Section Strings.

Lemma app_empty_r (s : string) : s +:+ "" = s.
Proof. induction s as [|c s IH]; [done|]. by rewrite app_cons, IH. Qed.

Lemma app_assoc_s (s t u : string) : (s +:+ t) +:+ u = s +:+ t +:+ u.
Proof. induction s as [|c s IH]; [done|]. by rewrite !app_cons, IH. Qed.

Lemma app_eq_empty (s t : string) : s +:+ t = "" -> s = "" /\ t = "".
Proof. destruct s; [by rewrite app_empty_l|by rewrite app_cons]. Qed.

Lemma length_app (s t : string) :
  String.length (s +:+ t) = (String.length s + String.length t)%nat.
Proof. induction s as [|c s IH]; [done|]. rewrite app_cons. simpl. by rewrite IH. Qed.

Lemma rev_app_eq (s t : string) : String.rev_app s t = String.rev s +:+ t.
Proof.
  revert t. induction s as [|c s IH]; intros t; [done|].
  unfold String.rev. simpl. rewrite (IH (String c "")), (IH (String c t)).
  by rewrite app_assoc_s.
Qed.

Lemma rev_cons (c : ascii) (s : string) :
  String.rev (String c s) = String.rev s +:+ String c "".
Proof. unfold String.rev at 1. simpl. apply rev_app_eq. Qed.

Lemma rev_app_distr_s (s t : string) :
  String.rev (s +:+ t) = String.rev t +:+ String.rev s.
Proof.
  induction s as [|c s IH].
  - by rewrite app_empty_l, app_empty_r.
  - by rewrite app_cons, !rev_cons, IH, app_assoc_s.
Qed.

Lemma rev_involutive_s (s : string) : String.rev (String.rev s) = s.
Proof.
  induction s as [|c s IH]; [done|].
  by rewrite rev_cons, rev_app_distr_s, IH.
Qed.

Lemma rev_eq_empty (s : string) : String.rev s = "" -> s = "".
Proof. intros H. by rewrite <- (rev_involutive_s s), H. Qed.

Lemma get_0_app (s t : string) :
  s <> "" -> StdString.get 0 (s +:+ t) = StdString.get 0 s.
Proof. destruct s; [done|]. by rewrite app_cons. Qed.

Lemma last_char_app (s t : string) :
  t <> "" -> last_char (s +:+ t) = last_char t.
Proof.
  intros Ht. induction s as [|c s IH]; [done|].
  rewrite app_cons. cbn [last_char]. rewrite IH.
  destruct (s +:+ t) eqn:E; [|done].
  by apply app_eq_empty in E as [_ ?].
Qed.

Lemma last_char_rev (s : string) :
  last_char (String.rev s) = StdString.get 0 s.
Proof. destruct s as [|c s]; [done|]. rewrite rev_cons. by apply last_char_app. Qed.

Lemma get_0_rev (s : string) :
  StdString.get 0 (String.rev s) = last_char s.
Proof. by rewrite <- last_char_rev, rev_involutive_s. Qed.

Lemma all_space_app (s t : string) :
  all_space (s +:+ t) = all_space s && all_space t.
Proof.
  induction s as [|c s IH]; [done|].
  rewrite app_cons. simpl. by rewrite IH, andb_assoc.
Qed.

Lemma all_space_rev (s : string) : all_space (String.rev s) = all_space s.
Proof.
  induction s as [|c s IH]; [done|].
  rewrite rev_cons, all_space_app, IH. simpl.
  by rewrite andb_true_r, andb_comm.
Qed.

End Strings.

(** ** [trim] *)

Section Trim.

Lemma trim_start_split (s : string) :
  exists pre, s = pre +:+ trim_start s /\ all_space pre = true.
Proof.
  induction s as [|c s (pre & IH & Hpre)]; [by exists ""|]. simpl.
  destruct (CType.isspace c) eqn:Hc.
  - exists (String c pre). rewrite app_cons, <- IH. simpl. by rewrite Hc.
  - by exists "".
Qed.

Lemma trim_start_head (s : string) (c : ascii) :
  StdString.get 0 (trim_start s) = Some c -> CType.isspace c = false.
Proof.
  induction s as [|d s IH]; [done|]. simpl.
  destruct (CType.isspace d) eqn:Hd; [done|]. by intros [= <-].
Qed.

Lemma trim_start_fixed (s : string) :
  (forall c, StdString.get 0 s = Some c -> CType.isspace c = false) ->
  trim_start s = s.
Proof. destruct s as [|c s]; [done|]. intros H. simpl. by rewrite (H c). Qed.

Lemma trim_start_empty (s : string) :
  trim_start s = "" <-> all_space s = true.
Proof.
  induction s as [|c s IH]; [done|]. simpl.
  destruct (CType.isspace c); [done|]. split; discriminate.
Qed.

Lemma trim_start_last (s : string) :
  trim_start s <> "" -> last_char (trim_start s) = last_char s.
Proof.
  intros Hne. destruct (trim_start_split s) as (pre & Hs & _).
  rewrite Hs at 2. by rewrite last_char_app.
Qed.

Lemma trim_is_trimmed (s : string) : trimmed (trim s).
Proof.
  unfold trim, trimmed. cbn zeta. split; intros c.
  - rewrite get_0_rev. intros Hlast.
    assert (trim_start (String.rev (trim_start s)) <> "") as Hne.
    { intros E. by rewrite E in Hlast. }
    rewrite trim_start_last, last_char_rev in Hlast by done.
    by apply trim_start_head in Hlast.
  - rewrite last_char_rev. apply trim_start_head.
Qed.

Lemma trim_fixed (s : string) : trimmed s -> trim s = s.
Proof.
  intros [Hhead Hlast]. unfold trim. cbn zeta.
  rewrite (trim_start_fixed s) by done.
  rewrite trim_start_fixed; [apply rev_involutive_s|].
  intros c. rewrite get_0_rev. apply Hlast.
Qed.

End Trim.

(** X1.  Whatever [trim] returns begins and ends with a character that is not
    whitespace, and trimming it again changes nothing. *)
Theorem trim_idempotent (s : string) :
  trimmed (trim s) /\ trim (trim s) = trim s.
Proof. split; [apply trim_is_trimmed|apply trim_fixed, trim_is_trimmed]. Qed.

Lemma trim_split (s : string) :
  exists pre post,
    s = pre +:+ trim s +:+ post /\
    all_space pre = true /\ all_space post = true.
Proof.
  destruct (trim_start_split s) as (pre & Hs & Hpre).
  destruct (trim_start_split (String.rev (trim_start s))) as (q & Hr & Hq).
  exists pre, (String.rev q). split; [|split; [done|by rewrite all_space_rev]].
  rewrite Hs at 1. f_equal. unfold trim. cbn zeta.
  rewrite <- rev_app_distr_s, <- Hr. by rewrite rev_involutive_s.
Qed.


(** X2.  [trim] removes whitespace only, and only at the two ends: the text is
    what was trimmed, between a run of whitespace and another. *)
Theorem trim_removes_only_outer_whitespace (s : string) :
  exists pre post,
    s = pre +:+ trim s +:+ post /\
    all_space pre = true /\ all_space post = true.
Proof. apply trim_split. Qed.

(** X3.  [trim] gives the empty string exactly for a text of whitespace. *)
Theorem trim_empty_iff_all_space (s : string) :
  trim s = "" <-> all_space s = true.
Proof.
  destruct (trim_split s) as (pre & post & Hs & Hpre & Hpost).
  split.
  - intros E. rewrite Hs, E, app_empty_l, all_space_app. by rewrite Hpre, Hpost.
  - intros Hall. unfold trim. cbn zeta.
    apply trim_start_empty in Hall. by rewrite Hall.
Qed.

(** ** [removeInlineComment] *)

Section Comments.

Lemma erase_split (i : nat) (s : string) :
  s = StdString.erase i s +:+ StdString.substr_from i s.
Proof.
  revert s. induction i as [|i IH]; intros s; [done|].
  destruct s as [|c s]; [done|]. simpl. by rewrite app_cons, <- IH.
Qed.

Lemma erase_comment_free (m : nat) (s : string) :
  (forall j, (j < m)%nat -> ~ semi_or_hash_at s j) ->
  (forall j, (j < m)%nat -> ~ double_slash_at s j) ->
  comment_free (StdString.erase m s).
Proof.
  intros Ha Hb i.
  destruct (Nat.lt_ge_cases i m) as [Hi|Hi].
  - split.
    + unfold semi_or_hash_at. rewrite get_erase_lt by done. apply Ha, Hi.
    + unfold double_slash_at. rewrite get_erase_lt by done.
      destruct (Nat.lt_ge_cases (S i) m) as [HSi|HSi].
      * rewrite get_erase_lt by done. apply Hb, Hi.
      * rewrite get_erase_ge by done. by intros [_ ?].
  - unfold semi_or_hash_at, double_slash_at. rewrite get_erase_ge by done.
    split; [by intros [?|?]|by intros [? _]].
Qed.

Lemma removeInlineComment_comment_free (s : string) :
  comment_free (removeInlineComment s).
Proof.
  pose proof (find_first_of_first s) as Ha.
  pose proof (find_double_slash_first s) as Hb.
  unfold removeInlineComment.
  destruct (StdString.find_first_of ";#" s) as [p|],
           (StdString.find "//" s) as [q|]; simpl in Ha, Hb.
  - destruct Ha as [_ Ha], Hb as [_ Hb].
    apply erase_comment_free; intros j Hj; [apply Ha|apply Hb]; lia.
  - destruct Ha as [_ Ha]. apply erase_comment_free; intros j Hj; auto.
  - destruct Hb as [_ Hb]. apply erase_comment_free; intros j Hj; auto.
  - intros i. split; auto.
Qed.

Lemma removeInlineComment_fixed (s : string) :
  comment_free s -> removeInlineComment s = s.
Proof.
  intros Hfree. unfold removeInlineComment.
  assert (StdString.find_first_of ";#" s = None) as ->.
  { apply (is_first_unique (semi_or_hash_at s)); [apply find_first_of_first|].
    intros i. apply Hfree. }
  assert (StdString.find "//" s = None) as ->; [|done].
  apply (is_first_unique (double_slash_at s)); [apply find_double_slash_first|].
  intros i. apply Hfree.
Qed.

Lemma removeInlineComment_prefix (s : string) :
  exists rest, s = removeInlineComment s +:+ rest.
Proof.
  destruct (removeInlineComment_cut s) as ([m|] & -> & _); simpl.
  - eexists. apply erase_split.
  - exists "". by rewrite app_empty_r.
Qed.

End Comments.

(** X4.  What [removeInlineComment] leaves is the beginning of the line, and it
    holds no ';', no '#' and no "//". *)
Theorem removeInlineComment_leaves_comment_free_prefix (s : string) :
  comment_free (removeInlineComment s) /\
  exists rest, s = removeInlineComment s +:+ rest.
Proof.
  split; [apply removeInlineComment_comment_free|apply removeInlineComment_prefix].
Qed.

(** X5.  Stripping a line that has been stripped changes nothing. *)
Theorem removeInlineComment_idempotent (s : string) :
  removeInlineComment (removeInlineComment s) = removeInlineComment s.
Proof. apply removeInlineComment_fixed, removeInlineComment_comment_free. Qed.

(** ** [getlines] *)

Section Lines.

Lemma getlines_nil (content : string) : getlines content = [] -> content = "".
Proof.
  destruct content as [|c rest]; [done|]. simpl.
  destruct (Ascii.eqb c "010"); [done|]. by destruct (getlines rest).
Qed.

Lemma getlines_no_newline (content : string) :
  Forall (fun l => StdString.mem newline l = false) (getlines content).
Proof.
  induction content as [|c rest IH]; [constructor|]. simpl.
  destruct (Ascii.eqb c "010") eqn:Hc; [by constructor|].
  assert (Ascii.eqb newline c = false) as Hc'.
  { by rewrite Ascii.eqb_sym. }
  destruct (getlines rest) as [|l ls]; constructor; simpl; rewrite ?Hc'; try done.
  - by inversion IH.
  - by inversion IH.
Qed.

Lemma getlines_line (l rest : string) :
  StdString.mem newline l = false ->
  getlines (l +:+ String newline rest) = l :: getlines rest.
Proof.
  induction l as [|c l IH]; [done|]. simpl.
  destruct (Ascii.eqb newline c) eqn:Hc; [done|]. intros Hl.
  rewrite Ascii.eqb_sym in Hc. unfold newline in Hc. rewrite Hc.
  by rewrite IH.
Qed.

Lemma getlines_unlines_eq (ls : list string) :
  Forall (fun l => StdString.mem newline l = false) ls ->
  getlines (unlines ls) = ls.
Proof.
  induction 1 as [|l ls Hl _ IH]; [done|]. simpl.
  by rewrite getlines_line, IH.
Qed.

Lemma unlines_getlines_eq (content : string) :
  unlines (getlines content)
  = if lacks_final_newline content then content +:+ String newline "" else content.
Proof.
  induction content as [|c rest IH]; [done|].
  cbn [getlines]. unfold lacks_final_newline in *. cbn [last_char].
  destruct (Ascii.eqb c "010") eqn:Hc.
  - apply Ascii.eqb_eq in Hc as ->. cbn [unlines]. rewrite app_empty_l, IH.
    destruct rest as [|d rest]; [done|].
    destruct (last_char (String d rest)) as [e|]; [|done].
    destruct (negb (Ascii.eqb e newline)); by rewrite ?app_cons.
  - destruct (getlines rest) as [|l ls] eqn:Hlines.
    + apply getlines_nil in Hlines as ->. unfold newline. by rewrite Hc.
    + cbn [unlines] in *. rewrite app_cons, IH.
      destruct rest as [|d rest]; [done|].
      destruct (last_char (String d rest)) as [e|]; [|done].
      destruct (negb (Ascii.eqb e newline)); by rewrite ?app_cons.
Qed.

End Lines.

(** X7.  The lines that the loop reads hold no '\n', and put together again,
    each with its '\n', they are the text of the file, with the final '\n'
    added when the last line had none. *)
Theorem getlines_splits_at_newlines (content : string) :
  Forall (fun l => StdString.mem newline l = false) (getlines content) /\
  unlines (getlines content)
  = if lacks_final_newline content then content +:+ String newline "" else content.
Proof. split; [apply getlines_no_newline|apply unlines_getlines_eq]. Qed.

(** X8.  Lines written out, each followed by '\n', are read back as they were;
    and the '\n' after the last line of a file may be left out. *)
Theorem getlines_reads_back_lines (ls : list string) (content : string) :
  Forall (fun l => StdString.mem newline l = false) ls ->
  getlines (unlines ls) = ls /\
  (lacks_final_newline content = true ->
   getlines (content +:+ String newline "") = getlines content).
Proof.
  intros Hls. split; [by apply getlines_unlines_eq|].
  intros Hlast. pose proof (unlines_getlines_eq content) as H.
  rewrite Hlast in H. rewrite <- H.
  apply getlines_unlines_eq, getlines_no_newline.
Qed.

Lemma getlines_reads_back_lines_witness :
  getlines (unlines ["[A]"; ""; "k = 1"]) = ["[A]"; ""; "k = 1"] /\
  getlines ("[A]" +:+ String newline "") = getlines "[A]".
Proof.
  destruct (getlines_reads_back_lines ["[A]"; ""; "k = 1"] "[A]") as [H1 H2].
  - repeat constructor.
  - split; [exact H1|]. apply H2. reflexivity.
Defined.

(** ** Searching and cutting a text put together from parts *)

Section Parts.

Lemma get_app_l (j : nat) (s t : string) :
  (j < String.length s)%nat -> StdString.get j (s +:+ t) = StdString.get j s.
Proof.
  revert j. induction s as [|c s IH]; intros j Hj; [simpl in Hj; lia|].
  rewrite app_cons. destruct j as [|j]; [done|]. simpl in *. apply IH. lia.
Qed.

Lemma get_app_r (j : nat) (s t : string) :
  StdString.get (String.length s + j) (s +:+ t) = StdString.get j t.
Proof. induction s as [|c s IH]; [done|]. by rewrite app_cons. Qed.

Lemma get_length_app (s t : string) :
  StdString.get (String.length s) (s +:+ t) = StdString.get 0 t.
Proof. by rewrite <- (Nat.add_0_r (String.length s)), get_app_r. Qed.

Lemma get_last (s : string) :
  s <> "" -> StdString.get (String.length s - 1) s = last_char s.
Proof.
  induction s as [|c s IH]; [done|]. intros _.
  destruct s as [|d s]; [done|].
  change (last_char (String c (String d s))) with (last_char (String d s)).
  rewrite <- IH by done. simpl. by rewrite Nat.sub_0_r.
Qed.

Lemma erase_app_length (s t : string) :
  StdString.erase (String.length s) (s +:+ t) = s.
Proof.
  induction s as [|c s IH]; [done|]. rewrite app_cons. simpl. by rewrite IH.
Qed.

Lemma substr_from_app_length (s t : string) :
  StdString.substr_from (String.length s) (s +:+ t) = t.
Proof. induction s as [|c s IH]; [done|]. by rewrite app_cons. Qed.

Lemma substr_from_S_app_length (s t : string) (c : ascii) :
  StdString.substr_from (String.length s + 1) (s +:+ String c t) = t.
Proof.
  induction s as [|d s IH]; [done|]. by rewrite app_cons.
Qed.

Lemma find_char_None (c : ascii) (s : string) :
  StdString.find_char c s = None <-> StdString.mem c s = false.
Proof.
  induction s as [|d s IH]; [done|]. simpl. rewrite (Ascii.eqb_sym c d).
  destruct (Ascii.eqb d c); [done|].
  rewrite <- IH. by destruct (StdString.find_char c s).
Qed.

Lemma find_char_app (c : ascii) (s t : string) :
  StdString.mem c s = false ->
  StdString.find_char c (s +:+ String c t) = Some (String.length s).
Proof.
  induction s as [|d s IH].
  - intros _. rewrite app_empty_l. simpl. by rewrite Ascii.eqb_refl.
  - simpl. rewrite (Ascii.eqb_sym c d). destruct (Ascii.eqb d c) eqn:Hd; [done|].
    intros Hs. by rewrite IH.
Qed.

Lemma mem_app (c : ascii) (s t : string) :
  StdString.mem c (s +:+ t) = StdString.mem c s || StdString.mem c t.
Proof.
  induction s as [|d s IH]; [done|]. rewrite app_cons. simpl.
  by destruct (Ascii.eqb c d).
Qed.

Lemma mem_get (c : ascii) (s : string) :
  StdString.mem c s = true <-> exists i, StdString.get i s = Some c.
Proof.
  induction s as [|d s IH]; simpl.
  - split; [done|]. by intros [i ?].
  - destruct (Ascii.eqb_spec c d) as [->|Hne].
    + split; [|done]. by exists O.
    + rewrite IH. split.
      * intros [i Hi]. by exists (S i).
      * intros [[|i] Hi]; [congruence|by exists i].
Qed.

End Parts.

(** ** A comment after a text *)

Section TrailingComment.

Lemma removeInlineComment_first_marker (s : string) (n : nat) :
  semi_or_hash_at s n \/ double_slash_at s n ->
  (forall j, (j < n)%nat -> ~ semi_or_hash_at s j /\ ~ double_slash_at s j) ->
  removeInlineComment s = StdString.erase n s.
Proof.
  intros Hmark Hclean.
  assert (forall p, semi_or_hash_at s p -> (n <= p)%nat) as Hlow_a.
  { intros p Hp. destruct (Nat.le_gt_cases n p) as [|Hlt]; [done|].
    by destruct (Hclean p Hlt). }
  assert (forall q, double_slash_at s q -> (n <= q)%nat) as Hlow_b.
  { intros q Hq. destruct (Nat.le_gt_cases n q) as [|Hlt]; [done|].
    by destruct (Hclean q Hlt). }
  pose proof (find_first_of_first s) as Ha.
  pose proof (find_double_slash_first s) as Hb.
  unfold removeInlineComment.
  destruct (StdString.find_first_of ";#" s) as [p|],
           (StdString.find "//" s) as [q|]; simpl in Ha, Hb.
  - destruct Ha as [Hp Hpmin], Hb as [Hq Hqmin].
    pose proof (Hlow_a p Hp). pose proof (Hlow_b q Hq).
    f_equal. destruct Hmark as [Hn|Hn].
    + destruct (Nat.lt_trichotomy n p) as [?|[?|?]]; [|lia..].
      by destruct (Hpmin n).
    + destruct (Nat.lt_trichotomy n q) as [?|[?|?]]; [|lia..].
      by destruct (Hqmin n).
  - destruct Ha as [Hp Hpmin]. pose proof (Hlow_a p Hp). f_equal.
    destruct Hmark as [Hn|Hn]; [|by destruct (Hb n)].
    destruct (Nat.lt_trichotomy n p) as [?|[?|?]]; [|lia..].
    by destruct (Hpmin n).
  - destruct Hb as [Hq Hqmin]. pose proof (Hlow_b q Hq). f_equal.
    destruct Hmark as [Hn|Hn]; [by destruct (Ha n)|].
    destruct (Nat.lt_trichotomy n q) as [?|[?|?]]; [|lia..].
    by destruct (Hqmin n).
  - destruct Hmark as [Hn|Hn]; [by destruct (Ha n)|by destruct (Hb n)].
Qed.

Lemma comment_free_before (text rest : string) (j : nat) :
  comment_free text -> (j < String.length text)%nat ->
  (StdString.get 0 rest = Some "/"%char -> last_char text <> Some "/"%char) ->
  ~ semi_or_hash_at (text +:+ rest) j /\ ~ double_slash_at (text +:+ rest) j.
Proof.
  intros Hfree Hj Hedge. destruct (Hfree j) as [Ha Hb]. split.
  - unfold semi_or_hash_at in *. by rewrite get_app_l.
  - unfold double_slash_at in *. rewrite get_app_l by done.
    destruct (Nat.lt_ge_cases (S j) (String.length text)) as [HSj|HSj].
    + by rewrite get_app_l.
    + assert (S j = String.length text) as HSj' by lia. rewrite HSj'.
      rewrite get_length_app. intros [Hlast Hfirst].
      apply (Hedge Hfirst). rewrite <- get_last.
      * by replace (String.length text - 1)%nat with j by lia.
      * intros ->. simpl in Hj. lia.
Qed.

Lemma removeInlineComment_strips (text comment : string) :
  comment_free text ->
  (exists rest, comment = String ";" rest \/ comment = String "#" rest \/
     (comment = String "/" (String "/" rest) /\ last_char text <> Some "/"%char)) ->
  removeInlineComment (text +:+ comment) = text.
Proof.
  intros Hfree (rest & Hcomment).
  rewrite <- (erase_app_length text comment) at 2.
  apply removeInlineComment_first_marker.
  - unfold semi_or_hash_at, double_slash_at.
    rewrite get_length_app.
    replace (S (String.length text)) with (String.length text + 1)%nat by lia.
    rewrite get_app_r.
    destruct Hcomment as [->|[->|[-> _]]]; simpl; auto.
  - intros j Hj. apply comment_free_before; [done..|].
    destruct Hcomment as [->|[->|[-> Hlast]]]; simpl; [done..|]. by intros _.
Qed.

End TrailingComment.

(** X6.  A comment that follows a text without comment marker is removed, with
    its marker, and the text is left whole.  ("//" must not follow a '/':
    the two would be read as the marker, one character earlier.) *)
Theorem removeInlineComment_removes_trailing_comment (text comment : string) :
  comment_free text ->
  (exists rest, comment = String ";" rest \/ comment = String "#" rest \/
     (comment = String "/" (String "/" rest) /\ last_char text <> Some "/"%char)) ->
  removeInlineComment (text +:+ comment) = text.
Proof. apply removeInlineComment_strips. Qed.

Lemma comment_free_searches (s : string) :
  StdString.find_first_of ";#" s = None -> StdString.find "//" s = None ->
  comment_free s.
Proof.
  intros Ha Hb i.
  pose proof (find_first_of_first s) as Ha'. rewrite Ha in Ha'.
  pose proof (find_double_slash_first s) as Hb'. rewrite Hb in Hb'.
  split; [apply Ha'|apply Hb'].
Qed.

Lemma removeInlineComment_removes_trailing_comment_witness :
  removeInlineComment ("ResY = 1080 " +:+ ";  Vertical resolution") = "ResY = 1080 " /\
  removeInlineComment ("gpu = vulkan " +:+ "// Sets the GPU API") = "gpu = vulkan ".
Proof.
  split.
  - apply (removeInlineComment_removes_trailing_comment
             "ResY = 1080 " ";  Vertical resolution").
    + apply comment_free_searches; reflexivity.
    + exists "  Vertical resolution". left. reflexivity.
  - apply (removeInlineComment_removes_trailing_comment
             "gpu = vulkan " "// Sets the GPU API").
    + apply comment_free_searches; reflexivity.
    + exists " Sets the GPU API". right; right. split; [reflexivity|discriminate].
Defined.

(** ** What one line does to the table *)

Section OneLine.
Variable nKeys : N.

Lemma classify_key_value (line key value : string) :
  removeInlineComment line = key +:+ String "=" value ->
  StdString.mem "["%char (key +:+ String "=" value) = false ->
  StdString.mem "="%char key = false ->
  classify line = KeyValue (trim key) (trim value).
Proof.
  intros Hline Hbracket Hkey. unfold classify. rewrite Hline.
  assert (StdString.empty (key +:+ String "=" value) = false) as ->.
  { destruct key; [done|by rewrite app_cons]. }
  apply find_char_None in Hbracket. rewrite Hbracket.
  rewrite find_char_app by done.
  unfold StdString.substr. cbn [StdString.substr_from].
  by rewrite erase_app_length, substr_from_S_app_length.
Qed.

Lemma classify_header (line pre name post : string) :
  removeInlineComment line = pre +:+ String "[" (name +:+ String "]" post) ->
  StdString.mem "["%char pre = false ->
  StdString.mem "]"%char name = false ->
  classify line = Header (trim name).
Proof.
  intros Hline Hpre Hname. unfold classify. rewrite Hline.
  assert (StdString.empty (pre +:+ String "[" (name +:+ String "]" post)) = false)
    as ->.
  { destruct pre; [done|by rewrite app_cons]. }
  rewrite find_char_app by done.
  unfold StdString.find_char_from. rewrite substr_from_app_length.
  assert (StdString.find_char "]" (String "[" (name +:+ String "]" post))
          = Some (S (String.length name))) as ->.
  { cbn [StdString.find_char]. change (Ascii.eqb "[" "]") with false.
    by rewrite find_char_app. }
  cbn [fmap option_fmap option_map].
  unfold StdString.substr. rewrite substr_from_S_app_length.
  replace (String.length pre + S (String.length name) - String.length pre - 1)%nat
    with (String.length name) by lia.
  by rewrite erase_app_length.
Qed.

Lemma classify_bracket (line : string) :
  StdString.mem "["%char (removeInlineComment line) = true ->
  classify line = Skipped \/ exists name, classify line = Header name.
Proof.
  intros Hmem. unfold classify.
  destruct (StdString.empty (removeInlineComment line)); [by left|].
  destruct (StdString.find_char "[" (removeInlineComment line)) as [pbs|] eqn:Hopen.
  - destruct (StdString.find_char_from "]" pbs (removeInlineComment line));
      [right; by eexists|by left].
  - apply find_char_None in Hopen. congruence.
Qed.

Lemma section_after_header (d : Document) (name : string) :
  is_Some (UMap.find name
             (UMap.set name
                (UMap.reserve nKeys (UMap.at_default UMap.empty name d)) d)).
Proof. unfold UMap.find, UMap.set; simpl. rewrite lookup_insert_eq. by eexists. Qed.

End OneLine.

(** X9.  A line whose text before the comment is [key=value], with no '[' in it
    and no '=' in [key], stores the trimmed value under the trimmed key in
    the current section; the current section and all other stored values
    stay as they are. *)
Theorem key_value_line_is_stored
    (nKeys : N) (st : loop_state) (line key value : string) :
  removeInlineComment line = key +:+ String "=" value ->
  StdString.mem "["%char (key +:+ String "=" value) = false ->
  StdString.mem "="%char key = false ->
  currentSection (process_line nKeys st line) = currentSection st /\
  find (data (process_line nKeys st line)) (currentSection st) (trim key)
  = Some (trim value) /\
  forall s k, ~ (s = currentSection st /\ k = trim key) ->
    find (data (process_line nKeys st line)) s k = find (data st) s k.
Proof.
  intros Hline Hbracket Hkey.
  rewrite process_line_classify,
    (classify_key_value line key value Hline Hbracket Hkey).
  cbn [data currentSection]. split; [done|]. split.
  - rewrite find_after_assignment. by rewrite decide_True.
  - intros s k Hne. rewrite find_after_assignment.
    rewrite decide_False; [done|]. intros [<- <-]. by apply Hne.
Qed.

Lemma key_value_line_is_stored_witness :
  find (data (process_line 8 (initial_state 32) "  ResX = 1920 // Horizontal"))
       "" "ResX" = Some "1920".
Proof.
  apply (key_value_line_is_stored 8 (initial_state 32)
           "  ResX = 1920 // Horizontal" "  ResX " " 1920 "); reflexivity.
Defined.

(** X10.  A line whose text before the comment holds [[name]], the first '[' of
    the line and the first ']' after it, makes the trimmed name the current
    section and makes sure the section exists; no stored value changes and
    no section is lost. *)
Theorem header_line_opens_section
    (nKeys : N) (st : loop_state) (line pre name post : string) :
  removeInlineComment line = pre +:+ String "[" (name +:+ String "]" post) ->
  StdString.mem "["%char pre = false ->
  StdString.mem "]"%char name = false ->
  currentSection (process_line nKeys st line) = trim name /\
  is_Some (UMap.find (trim name) (data (process_line nKeys st line))) /\
  (forall s k, find (data (process_line nKeys st line)) s k = find (data st) s k) /\
  (forall s, is_Some (UMap.find s (data st)) ->
             is_Some (UMap.find s (data (process_line nKeys st line)))).
Proof.
  intros Hline Hpre Hname.
  rewrite process_line_classify,
    (classify_header line pre name post Hline Hpre Hname).
  cbn [data currentSection]. split; [done|]. split; [apply section_after_header|].
  split; [intros s k; apply find_after_header|].
  intros s Hs. unfold UMap.find, UMap.set in *; simpl.
  destruct (decide (trim name = s)) as [->|Hne].
  - rewrite lookup_insert_eq. by eexists.
  - by rewrite lookup_insert_ne.
Qed.

Lemma header_line_opens_section_witness :
  currentSection (process_line 8 (initial_state 32) "  [ HUD ]  # head-up display")
  = "HUD".
Proof.
  apply (header_line_opens_section 8 (initial_state 32)
           "  [ HUD ]  # head-up display" "  " " HUD " "  "); reflexivity.
Defined.

(** X11.  A line with a '[' in its text before the comment never stores a value,
    even when it is written as [key=value]. *)
Theorem bracket_line_stores_nothing
    (nKeys : N) (st : loop_state) (line : string) :
  StdString.mem "["%char (removeInlineComment line) = true ->
  forall s k, find (data (process_line nKeys st line)) s k = find (data st) s k.
Proof.
  intros Hmem s k. rewrite process_line_classify.
  destruct (classify_bracket line Hmem) as [->|[name ->]]; [done|].
  apply find_after_header.
Qed.

Lemma bracket_line_stores_nothing_witness :
  find (data (process_line 8 (initial_state 32) "list = [1, 2]")) "" "list" = None.
Proof.
  apply (bracket_line_stores_nothing 8 (initial_state 32) "list = [1, 2]").
  reflexivity.
Defined.

(** ** Whitespace around a line *)

Section OuterWhitespace.

Lemma classify_classify_text (line : string) :
  classify line = classify_text (removeInlineComment line).
Proof. reflexivity. Qed.

(** Whitespace is none of the characters that the reader looks for. *)
Lemma isspace_not_special (c d : ascii) :
  CType.isspace c = true ->
  StdString.mem d ";#/[]=" = true -> Ascii.eqb c d = false.
Proof.
  intros Hc Hd. apply Ascii.eqb_neq. intros ->.
  simpl in Hd.
  repeat match type of Hd with
  | (if Ascii.eqb ?x ?y then _ else _) = _ =>
      destruct (Ascii.eqb_spec x y) as [->|_]; [discriminate Hc|]
  end.
  discriminate Hd.
Qed.

Lemma classify_text_space (c : ascii) :
  CType.isspace c = true -> classify_text (String c "") = Skipped.
Proof.
  intros Hc. unfold classify_text. simpl.
  by rewrite !(isspace_not_special c _ Hc).
Qed.

Lemma find_first_of_leading (c : ascii) (l : string) :
  CType.isspace c = true ->
  StdString.find_first_of ";#" (String c l) = S <$> StdString.find_first_of ";#" l.
Proof.
  intros Hc. simpl.
  by rewrite !(isspace_not_special c _ Hc).
Qed.

Lemma find_double_slash_leading (c : ascii) (l : string) :
  CType.isspace c = true ->
  StdString.find "//" (String c l) = S <$> StdString.find "//" l.
Proof.
  intros Hc. cbn [StdString.find StdString.starts_with].
  by rewrite Ascii.eqb_sym, (isspace_not_special c "/" Hc).
Qed.

Lemma removeInlineComment_leading (c : ascii) (l : string) :
  CType.isspace c = true ->
  removeInlineComment (String c l) = String c (removeInlineComment l).
Proof.
  intros Hc. unfold removeInlineComment.
  rewrite find_first_of_leading, find_double_slash_leading by done.
  destruct (StdString.find_first_of ";#" l), (StdString.find "//" l); done.
Qed.

Lemma trim_leading (c : ascii) (s : string) :
  CType.isspace c = true -> trim (String c s) = trim s.
Proof. intros Hc. unfold trim. simpl. by rewrite Hc. Qed.

Lemma classify_text_leading (c : ascii) (x : string) :
  CType.isspace c = true -> classify_text (String c x) = classify_text x.
Proof.
  intros Hc. destruct (decide (x = "")) as [->|Hx];
    [by apply classify_text_space|].
  apply empty_false_iff in Hx.
  unfold classify_text. cbn [StdString.empty StdString.find_char].
  rewrite Hx, !(isspace_not_special c _ Hc) by done.
  destruct (StdString.find_char "[" x) as [pbs|]; simpl.
  - unfold StdString.find_char_from. cbn [StdString.substr_from].
    destruct (StdString.find_char "]" (StdString.substr_from pbs x))
      as [i|]; simpl; [|done].
    unfold StdString.substr. by cbn [StdString.substr_from].
  - destruct (StdString.find_char "=" x) as [pe|]; simpl; [|done].
    unfold StdString.substr. cbn [StdString.substr_from StdString.erase].
    by rewrite trim_leading.
Qed.

Lemma classify_leading (pre l : string) :
  all_space pre = true -> classify (pre +:+ l) = classify l.
Proof.
  induction pre as [|c pre IH]; [done|]. simpl.
  intros [Hc Hpre]%andb_prop. rewrite app_cons, classify_classify_text.
  rewrite removeInlineComment_leading, classify_text_leading by done.
  by apply IH.
Qed.

End OuterWhitespace.

Section TrailingWhitespace.

Lemma get_Some_lt (i : nat) (s : string) (c : ascii) :
  StdString.get i s = Some c -> (i < String.length s)%nat.
Proof.
  revert i. induction s as [|d s IH]; intros i; [done|].
  destruct i as [|i]; simpl; [lia|]. intros H%IH. lia.
Qed.

Lemma find_char_bound (c : ascii) (s : string) (p : nat) :
  StdString.find_char c s = Some p -> (p < String.length s)%nat.
Proof.
  intros H. pose proof (find_char_first c s) as Hf. rewrite H in Hf.
  destruct Hf as [Hget _]. by apply get_Some_lt in Hget.
Qed.

Lemma find_first_of_bound (s : string) (p : nat) :
  StdString.find_first_of ";#" s = Some p -> (p < String.length s)%nat.
Proof.
  intros H. pose proof (find_first_of_first s) as Hf. rewrite H in Hf.
  destruct Hf as [[Hget|Hget] _]; by apply get_Some_lt in Hget.
Qed.

Lemma find_double_slash_bound (s : string) (q : nat) :
  StdString.find "//" s = Some q -> (q < String.length s)%nat.
Proof.
  intros H. pose proof (find_double_slash_first s) as Hf. rewrite H in Hf.
  destruct Hf as [[Hget _] _]. by apply get_Some_lt in Hget.
Qed.

Lemma erase_app_le (p : nat) (s t : string) :
  (p <= String.length s)%nat -> StdString.erase p (s +:+ t) = StdString.erase p s.
Proof.
  revert s. induction p as [|p IH]; intros s Hp; [done|].
  destruct s as [|c s]; simpl in Hp; [lia|].
  rewrite app_cons. simpl. rewrite IH; [done|lia].
Qed.

Lemma substr_from_app_le (p : nat) (s t : string) :
  (p <= String.length s)%nat ->
  StdString.substr_from p (s +:+ t) = StdString.substr_from p s +:+ t.
Proof.
  revert s. induction p as [|p IH]; intros s Hp; [done|].
  destruct s as [|c s]; simpl in Hp; [lia|].
  rewrite app_cons. simpl. apply IH. lia.
Qed.

Lemma length_substr_from (p : nat) (s : string) :
  String.length (StdString.substr_from p s) = (String.length s - p)%nat.
Proof.
  revert s. induction p as [|p IH]; intros s; [simpl; lia|].
  destruct s as [|c s]; [done|]. simpl. apply IH.
Qed.

Variable c : ascii.
Hypothesis Hc : CType.isspace c = true.

Lemma find_char_trailing (ch : ascii) (x : string) :
  StdString.mem ch ";#/[]=" = true ->
  StdString.find_char ch (x +:+ String c "") = StdString.find_char ch x.
Proof.
  intros Hch. induction x as [|d x IH].
  - rewrite app_empty_l. simpl. by rewrite (isspace_not_special c ch Hc).
  - rewrite app_cons. simpl. by rewrite IH.
Qed.

Lemma find_first_of_trailing (l : string) :
  StdString.find_first_of ";#" (l +:+ String c "") = StdString.find_first_of ";#" l.
Proof.
  induction l as [|d l IH].
  - rewrite app_empty_l. simpl. by rewrite !(isspace_not_special c _ Hc).
  - rewrite app_cons. cbn [StdString.find_first_of]. by rewrite IH.
Qed.

Lemma starts_with_slash_trailing (l : string) :
  StdString.starts_with "/" (l +:+ String c "") = StdString.starts_with "/" l.
Proof.
  destruct l as [|d l]; [|by rewrite app_cons].
  rewrite app_empty_l. cbn [StdString.starts_with].
  by rewrite Ascii.eqb_sym, (isspace_not_special c "/" Hc).
Qed.

Lemma find_double_slash_trailing (l : string) :
  StdString.find "//" (l +:+ String c "") = StdString.find "//" l.
Proof.
  induction l as [|d l IH].
  - rewrite app_empty_l. cbn [StdString.find StdString.starts_with].
    by rewrite andb_false_r.
  - rewrite app_cons. cbn [StdString.find]. rewrite IH.
    change (StdString.starts_with "//" (String d (l +:+ String c "")))
      with (Ascii.eqb "/" d && StdString.starts_with "/" (l +:+ String c "")).
    by rewrite starts_with_slash_trailing.
Qed.

Lemma removeInlineComment_trailing (l : string) :
  removeInlineComment (l +:+ String c "") = removeInlineComment l \/
  removeInlineComment (l +:+ String c "") = removeInlineComment l +:+ String c "".
Proof.
  unfold removeInlineComment.
  rewrite find_first_of_trailing, find_double_slash_trailing.
  destruct (StdString.find_first_of ";#" l) as [p|] eqn:Hp,
           (StdString.find "//" l) as [q|] eqn:Hq.
  - left. apply find_first_of_bound in Hp. apply erase_app_le. lia.
  - left. apply find_first_of_bound in Hp. apply erase_app_le. lia.
  - left. apply find_double_slash_bound in Hq. apply erase_app_le. lia.
  - by right.
Qed.

Lemma trim_start_trailing (y : string) :
  trim_start (y +:+ String c "")
  = if all_space y then "" else trim_start y +:+ String c "".
Proof.
  induction y as [|d y IH].
  - rewrite app_empty_l. simpl. by rewrite Hc.
  - rewrite app_cons. simpl. destruct (CType.isspace d); [done|].
    by rewrite app_cons.
Qed.

Lemma trim_trailing (y : string) : trim (y +:+ String c "") = trim y.
Proof.
  unfold trim. cbn zeta. rewrite trim_start_trailing.
  destruct (all_space y) eqn:Hy.
  - apply trim_start_empty in Hy. by rewrite Hy.
  - rewrite rev_app_distr_s. change (String.rev (String c "")) with (String c "").
    rewrite app_cons, app_empty_l. simpl. by rewrite Hc.
Qed.

Lemma classify_text_trailing (x : string) :
  classify_text (x +:+ String c "") = classify_text x.
Proof.
  destruct (decide (x = "")) as [->|Hx].
  { rewrite app_empty_l. by apply classify_text_space. }
  unfold classify_text.
  assert (StdString.empty (x +:+ String c "") = false) as ->.
  { destruct x; [done|by rewrite app_cons]. }
  apply empty_false_iff in Hx. rewrite Hx.
  rewrite !find_char_trailing by done.
  destruct (StdString.find_char "[" x) as [pbs|] eqn:Hopen.
  - apply find_char_bound in Hopen.
    unfold StdString.find_char_from.
    rewrite substr_from_app_le, find_char_trailing by (done || lia).
    destruct (StdString.find_char "]" (StdString.substr_from pbs x))
      as [i|] eqn:Hclose; simpl; [|done].
    apply find_char_bound in Hclose. rewrite length_substr_from in Hclose.
    unfold StdString.substr.
    rewrite substr_from_app_le, erase_app_le; [done| |lia].
    rewrite length_substr_from. lia.
  - destruct (StdString.find_char "=" x) as [pe|] eqn:Heq; [|done].
    apply find_char_bound in Heq.
    unfold StdString.substr. cbn [StdString.substr_from].
    rewrite erase_app_le, substr_from_app_le by lia.
    by rewrite trim_trailing.
Qed.

Lemma classify_trailing_char (l : string) :
  classify (l +:+ String c "") = classify l.
Proof.
  rewrite !classify_classify_text.
  destruct (removeInlineComment_trailing l) as [->| ->]; [done|].
  apply classify_text_trailing.
Qed.

End TrailingWhitespace.

Lemma classify_trailing (post l : string) :
  all_space post = true -> classify (l +:+ post) = classify l.
Proof.
  revert l. induction post as [|c post IH]; intros l.
  - by rewrite app_empty_r.
  - simpl. intros [Hc Hpost]%andb_prop.
    change (String c post) with (String c "" +:+ post).
    rewrite <- app_assoc_s, IH by done.
    by apply classify_trailing_char.
Qed.

Lemma process_line_outer_whitespace
    (nKeys : N) (st : loop_state) (pre l post : string) :
  all_space pre = true -> all_space post = true ->
  process_line nKeys st (pre +:+ l +:+ post) = process_line nKeys st l.
Proof.
  intros Hpre Hpost.
  by rewrite !process_line_classify, classify_leading, classify_trailing.
Qed.

(** X12.  Whitespace before and after a line makes no difference to what the
    line does: the reader does not trim the line, and need not. *)
Theorem process_line_ignores_outer_whitespace
    (nKeys : N) (st : loop_state) (pre l post : string) :
  all_space pre = true -> all_space post = true ->
  process_line nKeys st (pre +:+ l +:+ post) = process_line nKeys st l /\
  process_line nKeys st (trim (pre +:+ l +:+ post)) = process_line nKeys st l.
Proof.
  intros Hpre Hpost. split; [by apply process_line_outer_whitespace|].
  destruct (trim_split (pre +:+ l +:+ post)) as (p & q & Hs & Hp & Hq).
  rewrite <- (process_line_outer_whitespace nKeys st p _ q Hp Hq), <- Hs.
  by apply process_line_outer_whitespace.
Qed.

Lemma process_line_ignores_outer_whitespace_witness :
  process_line 8 (initial_state 32) ("  " +:+ "Scale = 1.00" +:+ String carriage_return "")
  = process_line 8 (initial_state 32) "Scale = 1.00".
Proof.
  apply (process_line_ignores_outer_whitespace 8 (initial_state 32)
           "  " "Scale = 1.00" (String carriage_return "")); reflexivity.
Defined.

(** X13.  A file with CRLF line endings is read as the same file with LF line
    endings: the '\r' that [getline] leaves at the end of each line changes
    nothing. *)
Theorem crlf_line_endings_are_tolerated
    (nSections nKeys : N) (ls : list string) :
  Forall (fun l => StdString.mem newline l = false) ls ->
  K4IniReader
    (Some (unlines ((fun l => l +:+ String carriage_return "") <$> ls)))
    nSections nKeys
  = K4IniReader (Some (unlines ls)) nSections nKeys.
Proof.
  intros Hls. unfold K4IniReader. f_equal.
  rewrite !getlines_unlines_eq; [|done|].
  - generalize (initial_state nSections).
    induction ls as [|l ls IH]; intros st; [done|].
    inversion Hls; subst. unfold run_lines in *. cbn [fmap list_fmap fold_left].
    rewrite <- (app_empty_l (l +:+ String carriage_return "")).
    rewrite process_line_outer_whitespace by done. by apply IH.
  - induction Hls as [|l ls Hl _ IH]; constructor; [|done].
    by rewrite mem_app, Hl.
Qed.

Lemma crlf_line_endings_are_tolerated_witness :
  K4IniReader
    (Some (unlines ["[HUD]" +:+ String carriage_return "";
                    "Scale = 1.00" +:+ String carriage_return ""])) 32 8
  = K4IniReader (Some (unlines ["[HUD]"; "Scale = 1.00"])) 32 8.
Proof.
  apply (crlf_line_endings_are_tolerated 32 8 ["[HUD]"; "Scale = 1.00"]).
  repeat constructor.
Defined.

(** ** More on the typed accessor *)

Section Accessor.

Lemma span_digits_maximal (s ds rest : string) :
  span_digits s = (ds, rest) -> starts_with_digit rest = false.
Proof.
  revert ds. induction s as [|c s IH]; intros ds; simpl.
  - by intros [= <- <-].
  - destruct (CType.isdigit c) eqn:Hc.
    + destruct (span_digits s) as [ds' rest'] eqn:Hs. intros [= <- <-].
      by apply (IH ds').
    + intros [= <- <-]. simpl. exact Hc.
Qed.

Lemma span_digits_nonempty (ds rest : string) :
  ds <> "" -> all_digits ds = true -> fst (span_digits (ds +:+ rest)) <> "".
Proof.
  destruct ds as [|c ds]; [done|]. intros _ Hds. rewrite app_cons. simpl in *.
  apply andb_prop in Hds as [-> _]. by destruct (span_digits (ds +:+ rest)).
Qed.

(** The scanner finds a token whenever there is one. *)
Lemma scan_empty_no_prefix (signed : bool) (raw body rest : string) (neg : bool) :
  (if signed then take_minus raw else (false, raw)) = (neg, body) ->
  span_digits body = ("", rest) ->
  no_int_prefix signed raw.
Proof.
  intros Hsign Hspan neg' ds' rest' Hraw Hds' Hneg'.
  destruct (decide (ds' = "")) as [|Hne]; [done|]. exfalso.
  assert (body = ds' +:+ rest') as ->.
  { subst raw. destruct neg'; simpl in Hsign.
    - rewrite (Hneg' eq_refl) in Hsign. by injection Hsign as _ <-.
    - rewrite app_empty_l in Hsign. destruct signed.
      + rewrite take_minus_digits in Hsign by done. by injection Hsign as _ <-.
      + by injection Hsign as _ <-. }
  apply (span_digits_nonempty ds' rest' Hne Hds'). by rewrite Hspan.
Qed.

Lemma from_chars_int_cases (signed : bool) (bits : Z) (raw : string) (value : Z) :
  (no_int_prefix signed raw /\
   from_chars_int signed bits raw value
   = ({| ptr := 0; ec := invalid_argument |}, value)) \/
  (exists neg ds rest,
     int_token signed raw neg ds rest /\
     from_chars_int signed bits raw value
     = let last := ((if neg then 1 else 0) + String.length ds)%nat in
       if int_in_range signed bits (int_token_value neg ds)
       then ({| ptr := last; ec := errc_none |}, int_token_value neg ds)
       else ({| ptr := last; ec := result_out_of_range |}, value)).
Proof.
  destruct (if signed then take_minus raw else (false, raw))
    as [neg body] eqn:Hsign.
  destruct (span_digits body) as [ds rest] eqn:Hspan.
  destruct (decide (ds = "")) as [->|Hne].
  - left. pose proof (scan_empty_no_prefix _ _ _ _ _ Hsign Hspan) as Hno.
    split; [done|]. by apply from_chars_int_no_prefix.
  - right. exists neg, ds, rest.
    assert (int_token signed raw neg ds rest) as Htok.
    { pose proof (span_digits_maximal _ _ _ Hspan) as Hmax.
      apply span_digits_split in Hspan as [-> Hds].
      split; [|done..| |done].
      - destruct signed; [by apply take_minus_split|by injection Hsign as <- <-].
      - destruct signed; [done|]. by injection Hsign as <- _. }
    split; [done|]. exact (from_chars_int_token _ _ _ _ _ _ _ Htok).
Qed.

Lemma isupper_tolower (c : ascii) : CType.isupper (CType.tolower c) = false.
Proof. destruct c as [[] [] [] [] [] [] [] []]; reflexivity. Qed.

Lemma any_of_isupper_map_tolower (s : string) :
  StdString.any_of CType.isupper (StdString.map CType.tolower s) = false.
Proof.
  induction s as [|c s IH]; [done|]. simpl. by rewrite isupper_tolower, IH.
Qed.

Lemma length_map (f : ascii -> ascii) (s : string) :
  String.length (StdString.map f s) = String.length s.
Proof. induction s as [|c s IH]; [done|]. simpl. by rewrite IH. Qed.

End Accessor.

(** X16.  An integer read that finds a raw value has two outcomes only.  Either
    no integer token begins the raw text, and the result is the default; or
    one does, and the result is the number it denotes when the type can
    hold it, and the default when it cannot. *)
Theorem read_int_outcomes
    (signed : bool) (bits : Z) (d : Document) (s k raw : string)
    (defaultValue : Z) (fl : bool) :
  find d s k = Some raw ->
  (no_int_prefix signed raw /\
   read (TInt signed bits) d s k defaultValue fl = defaultValue) \/
  (exists neg ds rest,
     int_token signed raw neg ds rest /\
     read (TInt signed bits) d s k defaultValue fl
     = if int_in_range signed bits (int_token_value neg ds)
       then int_token_value neg ds else defaultValue).
Proof.
  intros Hhit. unfold read. rewrite Hhit. cbn zeta.
  destruct (from_chars_int_cases signed bits raw defaultValue)
    as [[Hno ->]|(neg & ds & rest & Htok & ->)]; [by left|].
  right. exists neg, ds, rest. split; [done|]. cbn zeta.
  by destruct (int_in_range signed bits (int_token_value neg ds)).
Qed.

Lemma read_int_outcomes_witness :
  (no_int_prefix true "off" /\
   read (TInt true 32) sample_document "A" "v" 9 false = 9) \/
  (exists neg ds rest,
     int_token true "off" neg ds rest /\
     read (TInt true 32) sample_document "A" "v" 9 false
     = if int_in_range true 32 (int_token_value neg ds)
       then int_token_value neg ds else 9).
Proof.
  apply (read_int_outcomes true 32 sample_document "A" "v" "off" 9 false).
  reflexivity.
Defined.

(** X17.  An integer read never leaves the range of its type: when the default
    value is a value of the type, so is the result. *)
Theorem read_int_stays_in_range
    (signed : bool) (bits : Z) (d : Document) (s k : string)
    (defaultValue : Z) (fl : bool) :
  int_in_range signed bits defaultValue = true ->
  int_in_range signed bits (read (TInt signed bits) d s k defaultValue fl) = true.
Proof.
  intros Hdv. unfold read. destruct (find d s k) as [raw|]; [|done]. cbn zeta.
  destruct (from_chars_int_cases signed bits raw defaultValue)
    as [[_ ->]|(neg & ds & rest & _ & ->)]; [done|]. cbn zeta.
  by destruct (int_in_range signed bits (int_token_value neg ds)) eqn:E.
Qed.

Lemma read_int_stays_in_range_witness :
  int_in_range false 8 (read (TInt false 8) sample_document "A" "big" 255 false)
  = true.
Proof.
  apply (read_int_stays_in_range false 8 sample_document "A" "big" 255 false).
  reflexivity.
Defined.

(** X18.  A text read with fold-case that finds a raw value returns a text of
    the same length without any upper-case letter. *)
Theorem read_string_fold_case_has_no_upper
    (d : Document) (s k raw defaultValue : string) :
  find d s k = Some raw ->
  StdString.any_of CType.isupper (read TString d s k defaultValue true) = false /\
  String.length (read TString d s k defaultValue true) = String.length raw.
Proof.
  intros Hhit. unfold read. rewrite Hhit. unfold to_lower_if_upper.
  destruct (StdString.any_of CType.isupper raw) eqn:Hup; [|done].
  split; [apply any_of_isupper_map_tolower|apply length_map].
Qed.

Lemma read_string_fold_case_has_no_upper_witness :
  StdString.any_of CType.isupper (read TString sample_document "A" "t" "X" true)
  = false.
Proof.
  apply (read_string_fold_case_has_no_upper sample_document "A" "t" "True" "X").
  reflexivity.
Defined.

(** X19.  A key stored with an empty value is found, but only a text read shows
    it: the boolean read gives [false], and the character and numeric reads
    give the default. *)
Theorem read_of_empty_value
    (d : Document) (s k : string) (fl : bool) :
  find d s k = Some "" ->
  (forall defaultValue, read TString d s k defaultValue fl = "") /\
  (forall defaultValue, read TBool d s k defaultValue fl = false) /\
  (forall defaultValue, read TChar d s k defaultValue fl = defaultValue) /\
  (forall signed bits defaultValue,
     read (TInt signed bits) d s k defaultValue fl = defaultValue) /\
  (forall (F : Type) (nearest : float_token -> option F) defaultValue,
     read (TFloat F nearest) d s k defaultValue fl = defaultValue).
Proof.
  intros Hhit. unfold read. rewrite Hhit.
  split; [by destruct fl|]. split; [done|]. split; [done|].
  split; [by intros [] ? ?|done].
Qed.

Lemma read_of_empty_value_witness :
  read TString (K4IniReader (Some "name =  ; none yet") 32 8) "" "name" "anon" false
  = "".
Proof.
  destruct (read_of_empty_value (K4IniReader (Some "name =  ; none yet") 32 8)
              "" "name" false eq_refl) as [H _].
  apply H.
Defined.

(** ** What the table holds *)

Section StoredText.

Lemma substring_of_trans (s t u : string) :
  substring_of s t -> substring_of t u -> substring_of s u.
Proof.
  intros (a & b & ->) (a' & b' & ->). exists (a' +:+ a), (b +:+ b').
  by rewrite !app_assoc_s.
Qed.

Lemma erase_substring (n : nat) (s : string) : substring_of (StdString.erase n s) s.
Proof. exists "", (StdString.substr_from n s). rewrite app_empty_l. apply erase_split. Qed.

Lemma substr_from_substring (n : nat) (s : string) :
  substring_of (StdString.substr_from n s) s.
Proof.
  exists (StdString.erase n s), "". rewrite app_empty_r. apply erase_split.
Qed.

Lemma trim_substring (s : string) : substring_of (trim s) s.
Proof. destruct (trim_split s) as (a & b & Hs & _). by exists a, b. Qed.

Lemma substring_mem (c : ascii) (s t : string) :
  substring_of s t -> StdString.mem c t = false -> StdString.mem c s = false.
Proof.
  intros (a & b & ->). rewrite !mem_app.
  intros [_ [? _]%orb_false_elim]%orb_false_elim. done.
Qed.

Lemma get_substring (a s b : string) (i : nat) (c : ascii) :
  StdString.get i s = Some c ->
  StdString.get (String.length a + i) (a +:+ s +:+ b) = Some c.
Proof.
  intros Hget. rewrite get_app_r, get_app_l; [done|].
  by apply get_Some_lt in Hget.
Qed.

Lemma substring_comment_free (s t : string) :
  substring_of s t -> comment_free t -> comment_free s.
Proof.
  intros (a & b & ->) Hfree i. destruct (Hfree (String.length a + i)%nat) as [Ha Hb].
  split.
  - intros [H|H]; apply Ha; [left|right]; by apply get_substring.
  - intros [H1 H2]. apply Hb. split; [by apply get_substring|].
    rewrite <- Nat.add_succ_r. by apply get_substring.
Qed.

Lemma erase_before_first (c : ascii) (x : string) (p : nat) :
  StdString.find_char c x = Some p -> StdString.mem c (StdString.erase p x) = false.
Proof.
  revert p. induction x as [|d x IH]; intros p; [done|]. simpl.
  destruct (Ascii.eqb d c) eqn:Hd; [by intros [= <-]|].
  destruct (StdString.find_char c x) as [p'|]; [|done]. intros [= <-].
  simpl. rewrite Ascii.eqb_sym, Hd. by apply IH.
Qed.

Lemma substr_from_add (p q : nat) (x : string) :
  StdString.substr_from (p + q) x
  = StdString.substr_from q (StdString.substr_from p x).
Proof.
  revert x. induction p as [|p IH]; intros x; [done|].
  destruct x as [|d x]; simpl; [by destruct q|]. apply IH.
Qed.

Lemma trimmed_empty : trimmed "".
Proof. by split. Qed.

Lemma comment_free_empty : comment_free "".
Proof. intros i. split; [by intros [?|?]|by intros [? _]]. Qed.

(** The key and the value of a key-value line *)
Lemma classify_KeyValue_clean (l k v : string) :
  classify l = KeyValue k v ->
  (trimmed k /\ comment_free k /\
   StdString.mem "="%char k = false /\ StdString.mem "["%char k = false) /\
  (trimmed v /\ comment_free v /\ StdString.mem "["%char v = false).
Proof.
  unfold classify. pose proof (removeInlineComment_comment_free l) as Hfree.
  destruct (StdString.empty (removeInlineComment l)); [done|].
  destruct (StdString.find_char "[" (removeInlineComment l)) as [pbs|] eqn:Hopen.
  { by destruct (StdString.find_char_from "]" pbs (removeInlineComment l)). }
  apply find_char_None in Hopen.
  destruct (StdString.find_char "=" (removeInlineComment l)) as [pe|] eqn:Heq;
    [|done].
  intros [= <- <-]. unfold StdString.substr. cbn [StdString.substr_from].
  assert (substring_of (trim (StdString.erase pe (removeInlineComment l)))
            (removeInlineComment l)) as Hk.
  { eapply substring_of_trans; [apply trim_substring|apply erase_substring]. }
  assert (substring_of
            (trim (StdString.substr_from (pe + 1) (removeInlineComment l)))
            (removeInlineComment l)) as Hv.
  { eapply substring_of_trans; [apply trim_substring|apply substr_from_substring]. }
  refine (conj (conj (trim_is_trimmed _) (conj _ (conj _ _)))
               (conj (trim_is_trimmed _) (conj _ _))).
  - by apply (substring_comment_free _ _ Hk).
  - apply (substring_mem _ _ _ (trim_substring _)). by apply erase_before_first.
  - by apply (substring_mem _ _ _ Hk).
  - by apply (substring_comment_free _ _ Hv).
  - by apply (substring_mem _ _ _ Hv).
Qed.

(** The name of a section header *)
Lemma classify_Header_clean (l name : string) :
  classify l = Header name ->
  trimmed name /\ comment_free name /\ StdString.mem "]"%char name = false.
Proof.
  unfold classify. pose proof (removeInlineComment_comment_free l) as Hfree.
  destruct (StdString.empty (removeInlineComment l)); [done|].
  destruct (StdString.find_char "[" (removeInlineComment l)) as [pbs|];
    [|by destruct (StdString.find_char "=" (removeInlineComment l))].
  unfold StdString.find_char_from.
  destruct (StdString.find_char "]"
              (StdString.substr_from pbs (removeInlineComment l)))
    as [i|] eqn:Hclose; [|done].
  simpl. intros [= <-]. unfold StdString.substr.
  split; [apply trim_is_trimmed|]. split.
  - apply (substring_comment_free _ (removeInlineComment l)); [|done].
    eapply substring_of_trans; [apply trim_substring|].
    eapply substring_of_trans; [apply erase_substring|apply substr_from_substring].
  - apply (substring_mem _ _ _ (trim_substring _)).
    rewrite substr_from_add.
    replace (pbs + i - pbs - 1)%nat with (i - 1)%nat by lia.
    destruct (StdString.substr_from pbs (removeInlineComment l)) as [|d y];
      [done|].
    simpl in Hclose. destruct (Ascii.eqb d "]"); [by injection Hclose as <-|].
    destruct (StdString.find_char "]" y) as [i'|] eqn:Hy; [|done].
    injection Hclose as <-. simpl. rewrite Nat.sub_0_r.
    by apply erase_before_first.
Qed.

Lemma last_assigned_In (s k v : string) (tr : list (string * string * string)) :
  last_assigned s k tr = Some v -> (s, k, v) ∈ tr.
Proof.
  induction tr as [|[[s' k'] v'] tr IH]; [done|]. simpl.
  destruct (last_assigned s k tr) as [w|].
  - intros [= ->]. right. by apply IH.
  - case_decide as Heq; [|done]. destruct Heq as [-> ->]. intros [= ->]. left.
Qed.

Lemma assignments_In (cur s k v : string) (ls : list string) :
  (s, k, v) ∈ assignments cur ls ->
  (exists l, l ∈ ls /\ classify l = KeyValue k v) /\
  (s = cur \/ exists l, l ∈ ls /\ classify l = Header s).
Proof.
  revert cur. induction ls as [|l ls IH]; intros cur; simpl.
  - by intros ?%elem_of_nil.
  - destruct (classify l) as [|name|k' v'] eqn:Hl.
    + intros [(l' & ? & ?) [->|(l'' & ? & ?)]]%IH; split;
        eauto using list_elem_of_further.
    + intros [(l' & ? & ?) [->|(l'' & ? & ?)]]%IH; split;
        eauto 6 using list_elem_of_further, list_elem_of_here.
    + intros [[= -> -> ->]|[(l' & ? & ?) [->|(l'' & ? & ?)]]%IH]%elem_of_cons;
        split; eauto 6 using list_elem_of_further, list_elem_of_here.
Qed.

Lemma section_kept (nKeys : N) (st : loop_state) (line s : string) :
  is_Some (UMap.find s (data st)) ->
  is_Some (UMap.find s (data (process_line nKeys st line))).
Proof.
  intros Hs. rewrite process_line_classify.
  destruct (classify line) as [|name|k v]; [done|..];
    unfold UMap.find, UMap.set in *; cbn [data elems].
  - destruct (decide (name = s)) as [->|Hne].
    + rewrite lookup_insert_eq. by eexists.
    + by rewrite lookup_insert_ne.
  - destruct (decide (currentSection st = s)) as [->|Hne].
    + rewrite lookup_insert_eq. by eexists.
    + by rewrite lookup_insert_ne.
Qed.

End StoredText.

(** X14.  Every text that a Document built from a file holds is trimmed and free
    of comment markers.  Moreover a key has no '=' and no '[', a value has
    no '[', and a section name has no ']'. *)
Theorem stored_text_is_clean
    (content : string) (nSections nKeys : N) (s k v : string) :
  find (K4IniReader (Some content) nSections nKeys) s k = Some v ->
  (trimmed s /\ comment_free s /\ StdString.mem "]"%char s = false) /\
  (trimmed k /\ comment_free k /\
   StdString.mem "="%char k = false /\ StdString.mem "["%char k = false) /\
  (trimmed v /\ comment_free v /\ StdString.mem "["%char v = false).
Proof.
  rewrite find_K4IniReader.
  intros [(l & _ & Hkv) Hsec]%last_assigned_In%assignments_In.
  split; [|by apply (classify_KeyValue_clean l)].
  destruct Hsec as [->|(l' & _ & Hl')].
  - split; [apply trimmed_empty|]. split; [apply comment_free_empty|done].
  - by apply (classify_Header_clean l').
Qed.

Lemma stored_text_is_clean_witness :
  trimmed "1920" /\ comment_free "1920".
Proof.
  destruct (stored_text_is_clean
              ("[ Resolution ]" +:+ String newline "  ResX = 1920 // Horizontal")
              32 8 "Resolution" "ResX" "1920" eq_refl)
    as (_ & _ & Hv & Hfree & _).
  by split.
Defined.

(** X20.  A character read from a Document built from a file that finds a raw
    value that is not empty returns its first character, and this is never
    a whitespace character. *)
Theorem read_char_of_stored_value
    (content : string) (nSections nKeys : N) (s k raw : string)
    (c defaultValue : ascii) (fl : bool) :
  find (K4IniReader (Some content) nSections nKeys) s k = Some raw ->
  StdString.get 0 raw = Some c ->
  read TChar (K4IniReader (Some content) nSections nKeys) s k defaultValue fl = c /\
  CType.isspace c = false.
Proof.
  intros Hhit Hc. split.
  - unfold read. rewrite Hhit. by destruct raw; simplify_eq/=.
  - rewrite find_K4IniReader in Hhit.
    apply last_assigned_In, assignments_In in Hhit as [(l & _ & Hkv) _].
    apply classify_KeyValue_clean in Hkv as (_ & [Hhead _] & _).
    by apply Hhead.
Qed.

Lemma read_char_of_stored_value_witness :
  read TChar (K4IniReader (Some "drive =   C:") 32 8) "" "drive" "?"%char false
  = "C"%char.
Proof.
  apply (read_char_of_stored_value "drive =   C:" 32 8 "" "drive" "C:" "C" "?" false);
    reflexivity.
Defined.

(** X15.  The loop never removes anything: a section that is in the table stays
    in it, and a key that has a value keeps having one. *)
Theorem nothing_is_ever_removed
    (nKeys : N) (st : loop_state) (lines : list string) (s : string) :
  is_Some (UMap.find s (data st)) ->
  is_Some (UMap.find s (data (run_lines nKeys st lines))) /\
  forall k, is_Some (find (data st) s k) ->
            is_Some (find (data (run_lines nKeys st lines)) s k).
Proof.
  intros Hs. split.
  - revert st Hs. induction lines as [|l ls IH]; intros st Hs; [done|].
    apply IH. by apply section_kept.
  - intros k Hk. rewrite find_run_lines.
    by destruct (last_assigned s k (assignments (currentSection st) lines)).
Qed.

Lemma nothing_is_ever_removed_witness :
  is_Some (UMap.find "A"
             (data (run_lines 8 (process_line 8 (initial_state 32) "[A]")
                      ["[B]"; "k = 1"; "[unterminated"]))).
Proof.
  apply (nothing_is_ever_removed 8 (process_line 8 (initial_state 32) "[A]")
           ["[B]"; "k = 1"; "[unterminated"] "A").
  by eexists.
Defined.

(** ** The two revisions *)


(** The revisions differ on [char]: the earlier one reads a number and
    returns the character with that code. *)
Example read_v1_char_is_numeric :
  let d := K4IniReader (Some "c = 65") 32 8 in
  read_v1 true TChar d "" "c" "?"%char "!"%char false = Some "A"%char /\
  read TChar d "" "c" "?"%char false = "6"%char.
Proof. split; reflexivity. Qed.

(** The two constructors build Documents that answer every lookup alike,
    also for a file that cannot be opened, which only the later revision
    tests for. *)
Lemma constructors_agree_on_lookups
    (file : option string) (nSections nKeys : N) (s k : string) :
  find (K4INIReader_v1 file nSections nKeys) s k
  = find (K4IniReader file nSections nKeys) s k /\
  (forall content, file = Some content ->
     K4INIReader_v1 file nSections nKeys = K4IniReader file nSections nKeys).
Proof.
  split; [by destruct file|]. by intros content ->.
Qed.
